(** * Retrieval and tool-selection metrics of the langwatch cookbooks

    A shallow embedding of the scoring code of three notebooks:

    - the tool-selection notebook: [calculate_precision], [calculate_recall],
      the [asyncio.gather] run loop and [calculate_per_tool_recall];
    - the hybrid-vs-vector notebook: [recall], [mrr], [evaluate_search],
      [aggregate_metrics] and the loop over [k_values];
    - the GRPO notebook: [recall_score], [contains_answer], the BM25
      [search] wrapper and the construction of the examples.

    Python [float] is modelled by Rocq's primitive binary64 floats, Python
    [int] by [Z], Python lists by [list], [set] by [gset], [dict] by [gmap]
    (or by a record when the keys are fixed), and a raised exception by the
    [Raise] constructor of [result].  A Python [str] is held as the bytes
    of its UTF-8 encoding; [str.lower], whose case mapping covers all of
    Unicode, is a parameter of the functions that call it. *)

From Stdlib Require Import ZArith List String Ascii Bool Lia Sorted.
From Stdlib Require Import PrimFloat SpecFloat FloatOps FloatAxioms.
From stdpp Require Import gmap strings.

Local Open Scope Z_scope.

#[local] Set Warnings "-inexact-float".

(** ** Exceptions *)

Inductive exn : Type :=
| ZeroDivisionError
| IndexError
| KeyError
| ValueError
| AdapterError (msg : string).

Inductive result (A : Type) : Type :=
| Ok (a : A)
| Raise (e : exn).

Arguments Ok {A} a.
Arguments Raise {A} e.

#[global] Instance result_bind : MBind result :=
  fun A B (f : A -> result B) (m : result A) =>
    match m with
    | Ok a => f a
    | Raise e => Raise e
    end.

Definition is_ok {A : Type} (m : result A) : bool :=
  match m with
  | Ok _ => true
  | Raise _ => false
  end.

(** The sign, mantissa and exponent of a float result, to tell two results
    apart. *)
Definition result_repr (r : result float) : option spec_float :=
  match r with
  | Ok x => Some (Prim2SF x)
  | Raise _ => None
  end.

(** [[f(x) for x in l]] where [f] may raise: evaluation stops at the first
    element that raises. *)
Fixpoint mapM {A B : Type} (f : A -> result B) (l : list A) : result (list B) :=
  match l with
  | [] => Ok []
  | x :: l' =>
      y ← f x;
      ys ← mapM f l';
      Ok (y :: ys)
  end.

(** ** Python numbers *)

Module Py.

(** [float(n)] for an [int]: the nearest binary64 value. *)
Definition float_of_int (n : Z) : float :=
  SF2Prim (binary_normalize prec emax n 0 false).

(** [len(l)]. *)
Definition len {A : Type} (l : list A) : Z := Z.of_nat (length l).

(** [a / b] on two [int]s.  For operands below [2^53] in magnitude, as
    every list length is, the quotient is the binary64 division of the two
    converted operands. *)
Definition int_truediv (a b : Z) : result float :=
  if b =? 0 then Raise ZeroDivisionError
  else Ok (float_of_int a / float_of_int b)%float.

(** [x / b] for a [float] and an [int]. *)
Definition float_div_int (x : float) (b : Z) : result float :=
  if b =? 0 then Raise ZeroDivisionError
  else Ok (x / float_of_int b)%float.

(** The integer nearest to [n / d] for [0 < d], ties going to the even
    neighbour. *)
Definition round_half_even (n d : Z) : Z :=
  let q := n / d in
  let r := n mod d in
  match 2 * r ?= d with
  | Lt => q
  | Gt => q + 1
  | Eq => if Z.even q then q else q + 1
  end.

(** The binary64 value nearest to [h / 100], with sign [s]: what the
    decimal string of hundredths reads back as. *)
Definition of_hundredths (s : bool) (h : Z) : float :=
  match h with
  | Zpos p => SF2Prim (SFdiv prec emax (S754_finite s p 0) (S754_finite false 100 0))
  | _ => if s then (-0)%float else 0%float
  end.

(** [round(x, 2)]: the exact value of [x] is rounded half-even to two
    decimals, and the decimal result converted back to binary64. *)
Definition round2 (x : float) : float :=
  match Prim2SF x with
  | S754_finite s m e =>
      if 0 <=? e then x
      else of_hundredths s (round_half_even (100 * Zpos m) (2 ^ (- e)))
  | _ => x
  end.

(** [sum(g)] over [int]s: starts at [0] and adds from the left. *)
Definition sum (l : list Z) : Z := fold_left Z.add l 0.

(** [x in l] for a list: a linear scan with [==]. *)
Definition contains (x : string) (l : list string) : bool :=
  existsb (String.eqb x) l.

(** [not l] for a list. *)
Definition is_empty {A : Type} (l : list A) : bool :=
  match l with
  | [] => true
  | _ :: _ => false
  end.

(** The slice [l[i:j]] for [0 <= i <= j]; a slice never raises, it is cut
    at the end of the list. *)
Definition slice {A : Type} (l : list A) (i j : nat) : list A :=
  take (j - i) (drop i l).

(** [range(0, stop, step)] for [0 < step]: the multiples of [step] below
    [stop]. *)
Definition range_step (stop step : nat) : list nat :=
  map (fun j => (j * step)%nat) (seq 0 ((stop + step - 1) / step)).

(** [c.isspace()] on an ASCII character: tab to carriage return, the four
    separators 28 to 31, and the space.  It serves [split] below, which the
    code applies to ASCII text only. *)
Definition is_space (c : ascii) : bool :=
  let n := nat_of_ascii c in
  ((9 <=? n)%nat && (n <=? 13)%nat) || ((28 <=? n)%nat && (n <=? 32)%nat).

(** [s.split()] on a text of ASCII characters: the maximal runs of
    characters that are not whitespace; [cur] is the run being read. *)
Fixpoint split_from (cur : string) (s : string) : list string :=
  match s with
  | EmptyString => if String.eqb cur EmptyString then [] else [cur]
  | String c rest =>
      if is_space c
      then (if String.eqb cur EmptyString then split_from EmptyString rest
            else cur :: split_from EmptyString rest)
      else split_from (String.append cur (String c EmptyString)) rest
  end.

Definition split (s : string) : list string := split_from EmptyString s.

(** [s.lstrip(chars)] and [s.rstrip(chars)], the set of characters given
    by its membership test [p]. *)
Fixpoint lstrip (p : ascii -> bool) (s : string) : string :=
  match s with
  | EmptyString => EmptyString
  | String c rest => if p c then lstrip p rest else s
  end.

Fixpoint rstrip (p : ascii -> bool) (s : string) : string :=
  match s with
  | EmptyString => EmptyString
  | String c rest =>
      let r := rstrip p rest in
      if String.eqb r EmptyString && p c then EmptyString else String c r
  end.

(** [s.strip(chars)]. *)
Definition strip_chars (p : ascii -> bool) (s : string) : string :=
  rstrip p (lstrip p s).

(** The characters for which [str.isspace] holds, each by the bytes of its
    UTF-8 encoding: U+0009 to U+000D, U+001C to U+0020, U+0085, U+00A0,
    U+1680, U+2000 to U+200A, U+2028, U+2029, U+202F, U+205F and U+3000. *)
Definition whitespace : list (list ascii) :=
  map (map ascii_of_nat)
      ([[9]; [10]; [11]; [12]; [13]; [28]; [29]; [30]; [31]; [32];
        [194; 133]; [194; 160]; [225; 154; 128]]
       ++ map (fun b => [226; 128; b]) (seq 128 11)
       ++ [[226; 128; 168]; [226; 128; 169]; [226; 128; 175]; [226; 129; 159];
           [227; 128; 128]])%nat.

(** [s.startswith(w)]. *)
Fixpoint starts_with (w s : list ascii) : bool :=
  match w, s with
  | [], _ => true
  | a :: w', b :: s' => Ascii.eqb a b && starts_with w' s'
  | _ :: _, [] => false
  end.

(** Removing from the front of [s], one at a time, the characters whose
    encodings are listed in [seqs]; [fuel] bounds the number of characters
    removed, and the length of [s] is enough. *)
Fixpoint lstrip_seqs (seqs : list (list ascii)) (fuel : nat) (s : list ascii)
  : list ascii :=
  match fuel with
  | O => s
  | S fuel' =>
      match List.find (fun w => starts_with w s) seqs with
      | Some w => lstrip_seqs seqs fuel' (drop (length w) s)
      | None => s
      end
  end.

(** [s.lstrip()] and [s.rstrip()]; the latter reads the text and the
    encodings backwards. *)
Definition lstrip_space (s : list ascii) : list ascii :=
  lstrip_seqs whitespace (length s) s.

Definition rstrip_space (s : list ascii) : list ascii :=
  rev (lstrip_seqs (map (@rev ascii) whitespace) (length s) (rev s)).

(** [s.strip()]. *)
Definition strip (s : string) : string :=
  string_of_list_ascii (rstrip_space (lstrip_space (list_ascii_of_string s))).

(** No listed encoding is empty, and none begins another one. *)
Definition prefix_code (seqs : list (list ascii)) : Prop :=
  Forall (fun w => w <> []) seqs
  /\ forall w w' t, w ∈ seqs -> w' ∈ seqs -> w' = w ++ t -> t = [].

(** A text made of whitespace characters only, the empty text included. *)
Definition blank (s : list ascii) : Prop :=
  exists ws, Forall (fun w => w ∈ whitespace) ws /\ s = concat ws.

End Py.

(** ** numpy and pandas rounding *)

Module Np.

(** [np.rint]: the nearest integer, ties to even, as a float. *)
Definition rint (x : float) : float :=
  match Prim2SF x with
  | S754_finite s m e =>
      if 0 <=? e then x
      else
        let n := Py.float_of_int (Py.round_half_even (Zpos m) (2 ^ (- e))) in
        if s then (- n)%float else n
  | _ => x
  end.

(** [ndarray.round(2)] on a float: multiply by [10**2], [rint], divide. *)
Definition round2 (x : float) : float := (rint (x * 100) / 100)%float.

End Np.

(** ** Tool-selection notebook: per-query metrics *)

Module ToolCalls.

(** [sum(1 for tool in xs if tool in ys)]. *)
Definition count_hits (xs ys : list string) : Z :=
  Py.sum (flat_map (fun tool => if Py.contains tool ys then [1] else []) xs).

Definition calculate_precision (model_tool_call expected_tool_call : list string)
  : result float :=
  if Py.is_empty model_tool_call then Ok 0%float
  else
    let correct_calls := count_hits model_tool_call expected_tool_call in
    q ← Py.int_truediv correct_calls (Py.len model_tool_call);
    Ok (Py.round2 q).

Definition calculate_recall (model_tool_call expected_tool_call : list string)
  : result float :=
  if Py.is_empty expected_tool_call then Ok 1%float
  else if Py.is_empty model_tool_call then Ok 0%float
  else
    let correct_calls := count_hits expected_tool_call model_tool_call in
    q ← Py.int_truediv correct_calls (Py.len expected_tool_call);
    Ok (Py.round2 q).

(** A row of the data frame: the columns [query], [expected], [actual]
    and [time]. *)
Record QueryRow : Type := {
  query : string;
  expected : list string;
  actual : list string;
  time : float
}.

(** A row after [calculate_precision_recall_for_queries]. *)
Record ScoredRow : Type := {
  row : QueryRow;
  precision : float;
  recall : float
}.

(** The two [df.apply(.., axis=1)] passes: the [precision] column first,
    then the [recall] column.  On a frame without rows [df.apply] returns a
    frame, not a column, and the assignment to the [precision] column raises
    [ValueError]. *)
Definition calculate_precision_recall_for_queries (df : list QueryRow)
  : result (list ScoredRow) :=
  if Py.is_empty df then Raise ValueError
  else
    ps ← mapM (fun x => calculate_precision (actual x) (expected x)) df;
    rs ← mapM (fun x => calculate_recall (actual x) (expected x)) df;
    Ok (zip_with (fun x pr => {| row := x; precision := fst pr; recall := snd pr |})
                 df (zip ps rs)).

(** *** The run loop *)

Record OutputItem : Type := { item_type : string; item_name : string }.

(** A response object; [output] is [None] when the attribute is missing
    or is Python's [None]. *)
Record Response : Type := { output : option (list OutputItem) }.

Definition extract_tool_calls (response : Response) : list string :=
  match output response with
  | Some ((_ :: _) as items) =>
      map item_name
          (List.filter (fun output_item => String.eqb (item_type output_item) "function_call")
                       items)
  | _ => []
  end.

(** [await asyncio.gather] on the coroutines, each given by its outcome:
    the list of results in the order of [coros] when all succeed, an
    exception when one raises.  With several failures asyncio propagates
    the one raised first in time; the model takes the first in list
    order. *)
Definition gather {A : Type} (coros : list (result A)) : result (list A) :=
  mapM (fun c => c) coros.

Section Run.
(** The call to the model: the response and the elapsed time, or an
    exception. *)
Variable process_user_query : string -> result (Response * float).

(** The cell that runs [tests]; a test item is a query and the names of
    the tools expected for it.  With no test the frame is [pd.DataFrame([])],
    which has no rows, and the scoring raises. *)
Definition run_tests (tests : list (string * list string)) : result (list ScoredRow) :=
  let coros := map (fun t => process_user_query (fst t)) tests in
  results ← gather coros;
  let df :=
    zip_with (fun test_item result =>
                {| query := fst test_item;
                   expected := snd test_item;
                   actual := extract_tool_calls (fst result);
                   time := Py.round2 (snd result) |})
             tests results in
  calculate_precision_recall_for_queries df.
End Run.

(** A model endpoint that fails on one query. *)
Definition flaky_endpoint (query : string) : result (Response * float) :=
  if String.eqb query "second"
  then Raise (AdapterError "connection reset")
  else Ok ({| output := Some [{| item_type := "function_call";
                                 item_name := "send_email" |}] |}, 1%float).

(** *** Per-tool recall *)

(** [all_tools]: the union of every row's [expected + actual]. *)
Definition collect_tools (df : list QueryRow) : gset string :=
  fold_left (fun all_tools tools => all_tools ∪ list_to_set tools)
            (map (fun r => expected r ++ actual r) df) ∅.

(** [counter[tool]]. *)
Definition getitem (counter : gmap string Z) (tool : string) : result Z :=
  match counter !! tool with
  | Some n => Ok n
  | None => Raise KeyError
  end.

(** [counter[tool] += 1]. *)
Definition increment (counter : gmap string Z) (tool : string)
  : result (gmap string Z) :=
  n ← getitem counter tool;
  Ok (<[tool := n + 1]> counter).

(** The two counters, [correct_calls] and [expected_calls]. *)
Definition Counters : Type := gmap string Z * gmap string Z.

(** The body of [for tool in expected]. *)
Definition count_tool (actual_set : gset string) (st : Counters) (tool : string)
  : result Counters :=
  expected_calls ← increment (snd st) tool;
  if decide (tool ∈ actual_set)
  then correct_calls ← increment (fst st) tool; Ok (correct_calls, expected_calls)
  else Ok (fst st, expected_calls).

Fixpoint foldM {A S : Type} (f : S -> A -> result S) (l : list A) (st : S) : result S :=
  match l with
  | [] => Ok st
  | x :: l' => st' ← f st x; foldM f l' st'
  end.

(** The body of [for _, row in df.iterrows()]. *)
Definition count_row (st : Counters) (r : QueryRow) : result Counters :=
  let expected_set : gset string := list_to_set (expected r) in
  let actual_set : gset string := list_to_set (actual r) in
  foldM (count_tool actual_set) (elements expected_set) st.

Record ToolRow : Type := {
  tool : string;
  correct_calls : Z;
  expected_calls : Z;
  tool_recall : float
}.

(** The body of [for tool in all_tools].  The guard's [else] branch gives
    the int [0]; the float column of the frame holds it as [0.0]. *)
Definition tool_row (st : Counters) (t : string) : result ToolRow :=
  e ← getitem (snd st) t;
  r ← (if 0 <? e
       then c ← getitem (fst st) t; Py.int_truediv c e
       else Ok 0%float);
  c ← getitem (fst st) t;
  Ok {| tool := t; correct_calls := c; expected_calls := e; tool_recall := r |}.

(** [sort_values(.., ascending=False)] on the [recall] column.  pandas does
    not fix the order of rows with equal keys; the model keeps them in
    their order of arrival. *)
Fixpoint insert_desc (r : ToolRow) (l : list ToolRow) : list ToolRow :=
  match l with
  | [] => [r]
  | r' :: l' =>
      if PrimFloat.ltb (tool_recall r) (tool_recall r')
      then r' :: insert_desc r l'
      else r :: l
  end.

Definition sort_values_desc (l : list ToolRow) : list ToolRow :=
  foldr insert_desc [] l.

(** [DataFrame.round(2)]: the float column is rounded, the integer
    columns are left as they are. *)
Definition round_row (r : ToolRow) : ToolRow :=
  {| tool := tool r; correct_calls := correct_calls r;
     expected_calls := expected_calls r;
     tool_recall := Np.round2 (tool_recall r) |}.

(** The iteration order of a Python [set] is not specified; the model
    walks [all_tools] and each row's [expected] set in the order of
    [elements].  A frame built from no rows has no [recall] column, and
    sorting it by that column raises [KeyError]. *)
Definition calculate_per_tool_recall (df : list QueryRow) : result (list ToolRow) :=
  let all_tools := collect_tools df in
  let zeros : gmap string Z := gset_to_gmap 0 all_tools in
  st ← foldM count_row df (zeros, zeros);
  results ← mapM (tool_row st) (elements all_tools);
  if Py.is_empty results then Raise KeyError
  else Ok (map round_row (sort_values_desc results)).

(** *** Vocabulary of the statements about the breakdown *)

(** The number of rows whose expected list holds [t]. *)
Definition expected_count (t : string) (df : list QueryRow) : Z :=
  Z.of_nat (length (List.filter (fun r => Py.contains t (expected r)) df)).

(** The number of rows whose expected list and actual list both hold [t]. *)
Definition correct_count (t : string) (df : list QueryRow) : Z :=
  Z.of_nat (length (List.filter
                      (fun r => Py.contains t (expected r) && Py.contains t (actual r))
                      df)).

(** The row of [t] before sorting and rounding. *)
Definition tool_summary (df : list QueryRow) (t : string) : ToolRow :=
  let e := expected_count t df in
  let c := correct_count t df in
  {| tool := t; correct_calls := c; expected_calls := e;
     tool_recall :=
       if 0 <? e then (Py.float_of_int c / Py.float_of_int e)%float else 0%float |}.

(** The counters hold, for the tools of [tools] and for no other key, the
    values given by [fc] and [fe]. *)
Definition counts_are (tools : gset string) (st : Counters) (fc fe : string -> Z) : Prop :=
  forall t,
    fst st !! t = (if decide (t ∈ tools) then Some (fc t) else None)
    /\ snd st !! t = (if decide (t ∈ tools) then Some (fe t) else None).

Definition indicator (P : Prop) `{Decision P} : Z := if bool_decide P then 1 else 0.

(** The frame the notebook displays: the expected and the actual tool
    calls of its six test queries. *)
Definition notebook_df : list QueryRow :=
  [ {| query := "Send an email to john@example.com about the project update";
       expected := ["send_email"]; actual := []; time := 0.9 |};
    {| query := "What meetings do I have scheduled for tomorrow?";
       expected := ["get_calendar_events"]; actual := ["get_calendar_events"];
       time := 0.88 |};
    {| query := "Set a reminder for my dentist appointment next week";
       expected := ["create_reminder"]; actual := ["create_reminder"]; time := 1.37 |};
    {| query := "Check my calendar for next week's meetings and set reminders for each one";
       expected := ["get_calendar_events"; "create_reminder"];
       actual := ["get_calendar_events"]; time := 1.06 |};
    {| query := "Look up my team meeting schedule and send the agenda to all participants";
       expected := ["get_calendar_events"; "send_email"];
       actual := ["get_calendar_events"]; time := 1.19 |};
    {| query := "Set a reminder for the client call and send a confirmation email to the team";
       expected := ["create_reminder"; "send_email"];
       actual := ["create_reminder"; "send_email"]; time := 1.97 |} ].

End ToolCalls.

(** ** Hybrid-vs-vector notebook *)

Module Hybrid.

(** [re.sub] with a character class of three characters and an empty
    replacement: drops every single quote (39), double quote (34) and
    backslash (92). *)
Fixpoint sanitize_query (query : string) : string :=
  match query with
  | EmptyString => EmptyString
  | String c rest =>
      let n := nat_of_ascii c in
      if (n =? 39)%nat || (n =? 34)%nat || (n =? 92)%nat
      then sanitize_query rest
      else String c (sanitize_query rest)
  end.

(** The LanceDB table, seen through the three query pipelines the notebook
    runs on it ([tbl.search(..)...limit(k).to_pandas()["id"].tolist()]);
    each returns the ranked ids or raises. *)
Record Table (Embedding : Type) : Type := {
  vector_search : Embedding -> Z -> result (list string);
  fts_search : string -> Z -> result (list string);
  hybrid_search : string -> Embedding -> Z -> result (list string)
}.
Arguments vector_search {Embedding} _ _ _.
Arguments fts_search {Embedding} _ _ _.
Arguments hybrid_search {Embedding} _ _ _ _.

Definition search_semantic {E} (tbl : Table E) (query : string) (embedding : E) (k : Z)
  : result (list string) :=
  vector_search tbl embedding k.

Definition search_lexical {E} (tbl : Table E) (query : string) (k : Z)
  : result (list string) :=
  fts_search tbl (sanitize_query query) k.

Definition search_hybrid {E} (tbl : Table E) (query : string) (embedding : E) (k : Z)
  : result (list string) :=
  hybrid_search tbl (sanitize_query query) embedding k.

Definition recall (retrieved expected : list string) : result float :=
  Py.float_div_int
    (Py.float_of_int
       (Z.of_nat (size ((list_to_set retrieved : gset string) ∩ list_to_set expected))))
    (Py.len expected).

(** The [for rank, doc_id in enumerate(retrieved, 1)] loop of [mrr], from
    the current [rank] on. *)
Fixpoint mrr_loop (rank : Z) (retrieved expected : list string) : result float :=
  match retrieved with
  | [] => Ok 0%float
  | doc_id :: rest =>
      if Py.contains doc_id expected then Py.float_div_int 1%float rank
      else mrr_loop (rank + 1) rest expected
  end.

Definition mrr (retrieved expected : list string) : result float :=
  mrr_loop 1 retrieved expected.

(** One entry of a strategy's list: a dict with the keys [recall] and
    [mrr]. *)
Record MetricRecord : Type := { rec_recall : float; rec_mrr : float }.

(** [metrics = dict(semantic=[], lexical=[], hybrid=[])]: a dict with three
    fixed keys, in this insertion order. *)
Record Metrics : Type := {
  semantic : list MetricRecord;
  lexical : list MetricRecord;
  hybrid : list MetricRecord
}.

Definition items (metrics : Metrics) : list (string * list MetricRecord) :=
  [("semantic", semantic metrics); ("lexical", lexical metrics); ("hybrid", hybrid metrics)].

(** Subscription [l[idx]] with [0 <= idx]. *)
Definition index {A : Type} (l : list A) (idx : nat) : result A :=
  match l !! idx with
  | Some x => Ok x
  | None => Raise IndexError
  end.

(** The dict literal appended for one strategy: [recall(search, eid)]
    under the key [recall], then [mrr(search, eid)] under [mrr]; the search
    is run once for each of the two, left to right. *)
Definition score (search : result (list string)) (eid : list string)
  : result MetricRecord :=
  retrieved ← search;
  r ← recall retrieved eid;
  retrieved' ← search;
  m ← mrr retrieved' eid;
  Ok {| rec_recall := r; rec_mrr := m |}.

Section Evaluate.
Context {E : Type} (tbl : Table E).
Context (expected_ids : list (list string)) (embeddings : list E) (k : Z).

(** The body of the loop of [evaluate_search], at position [idx]. *)
Definition evaluate_step (idx : nat) (query : string) (metrics : Metrics)
  : result Metrics :=
  eid ← index expected_ids idx;
  emb ← index embeddings idx;
  s ← score (search_semantic tbl query emb k) eid;
  l ← score (search_lexical tbl query k) eid;
  h ← score (search_hybrid tbl query emb k) eid;
  Ok {| semantic := semantic metrics ++ [s];
        lexical := lexical metrics ++ [l];
        hybrid := hybrid metrics ++ [h] |}.

Fixpoint evaluate_loop (idx : nat) (queries : list string) (metrics : Metrics)
  : result Metrics :=
  match queries with
  | [] => Ok metrics
  | query :: rest =>
      metrics' ← evaluate_step idx query metrics;
      evaluate_loop (S idx) rest metrics'
  end.

End Evaluate.

Definition evaluate_search {E} (tbl : Table E) (queries : list string)
    (expected_ids : list (list string)) (embeddings : list E) (k : Z)
  : result Metrics :=
  evaluate_loop tbl expected_ids embeddings k 0
    queries {| semantic := []; lexical := []; hybrid := [] |}.

(** One row of [results]. *)
Record ResultRow : Type := {
  row_k : Z;
  row_method : string;
  row_recall : float;
  row_mrr : float
}.

Definition k_values : list Z := [3; 5; 10].

Section Experiment.
(** [np.mean] on a list of floats, numpy's own. *)
Variable np_mean : list float -> float.

Definition aggregate_metrics (metrics : Metrics) : list (string * (float * float)) :=
  map (fun '(m, v) => (m, (np_mean (map rec_recall v), np_mean (map rec_mrr v))))
      (items metrics).

Context {E : Type} (tbl : Table E).
Context (queries : list string) (expected_ids : list (list string)).
Context (query_embeddings : list E).

(** The body of [for k in k_values]. *)
Definition experiment_step (k : Z) (results : list ResultRow)
  : result (list ResultRow) :=
  metrics ← evaluate_search tbl queries expected_ids query_embeddings k;
  let summary := aggregate_metrics metrics in
  Ok (fold_left
        (fun results '(method, vals) =>
           results ++ [{| row_k := k; row_method := method;
                          row_recall := fst vals; row_mrr := snd vals |}])
        summary results).

Fixpoint experiment_loop (ks : list Z) (results : list ResultRow)
  : result (list ResultRow) :=
  match ks with
  | [] => Ok results
  | k :: ks' =>
      results' ← experiment_step k results;
      experiment_loop ks' results'
  end.

Definition run_experiment : result (list ResultRow) :=
  experiment_loop k_values [].

End Experiment.

(** A left-to-right mean, to run the experiment on examples. *)
Definition mean_left (l : list float) : float :=
  (fold_left PrimFloat.add l 0 / Py.float_of_int (Py.len l))%float.

(** *** Vocabulary of the statements about the experiment *)

(** The adapter call behind a strategy name. *)
Definition strategy_search {E} (tbl : Table E) (method : string)
    (query : string) (emb : E) (k : Z) : result (list string) :=
  if String.eqb method "semantic" then search_semantic tbl query emb k
  else if String.eqb method "lexical" then search_lexical tbl query k
  else search_hybrid tbl query emb k.

(** The list a strategy name is bound to in [metrics]. *)
Definition records_of (metrics : Metrics) (method : string) : list MetricRecord :=
  if String.eqb method "semantic" then semantic metrics
  else if String.eqb method "lexical" then lexical metrics
  else hybrid metrics.

(** The record of one (strategy, query, k) cell. *)
Definition cell_record {E} (tbl : Table E) (expected_ids : list (list string))
    (embeddings : list E) (k : Z) (method : string) (idx : nat) (query : string)
  : result MetricRecord :=
  eid ← index expected_ids idx;
  emb ← index embeddings idx;
  score (strategy_search tbl method query emb k) eid.

(** The records of one (strategy, k) group, in the order of the queries,
    the first query having position [idx]. *)
Fixpoint group_records_from {E} (tbl : Table E) (expected_ids : list (list string))
    (embeddings : list E) (k : Z) (method : string) (idx : nat) (queries : list string)
  : result (list MetricRecord) :=
  match queries with
  | [] => Ok []
  | query :: rest =>
      r ← cell_record tbl expected_ids embeddings k method idx query;
      rs ← group_records_from tbl expected_ids embeddings k method (S idx) rest;
      Ok (r :: rs)
  end.

Definition group_records {E} (tbl : Table E) (queries : list string)
    (expected_ids : list (list string)) (embeddings : list E)
    (k : Z) (method : string) : result (list MetricRecord) :=
  group_records_from tbl expected_ids embeddings k method 0 queries.

(** Nothing raises in the cells of the query at position [idx]: its
    expected ids and embedding exist, the expected list is not empty, and
    the three adapter calls return. *)
Definition cell_ok {E} (tbl : Table E) (expected_ids : list (list string))
    (embeddings : list E) (k : Z) (idx : nat) (query : string) : Prop :=
  exists eid emb,
    expected_ids !! idx = Some eid /\ eid <> [] /\ embeddings !! idx = Some emb
    /\ is_ok (search_semantic tbl query emb k) = true
    /\ is_ok (search_lexical tbl query k) = true
    /\ is_ok (search_hybrid tbl query emb k) = true.

Definition calls_succeed {E} (tbl : Table E) (queries : list string)
    (expected_ids : list (list string)) (embeddings : list E) (k : Z) : Prop :=
  forall idx query, queries !! idx = Some query ->
    cell_ok tbl expected_ids embeddings k idx query.

(** The keys of the report: every configured k, in the order of
    [k_values], each with the three strategies in their insertion order. *)
Definition strategies : list string := ["semantic"; "lexical"; "hybrid"].

Definition report_keys : list (Z * string) :=
  flat_map (fun k => map (pair k) strategies) k_values.

Definition row_key (r : ResultRow) : Z * string := (row_k r, row_method r).

(** The row of one (strategy, k) group: the means over its records. *)
Definition group_row (np_mean : list float -> float) (k : Z) (metrics : Metrics)
    (method : string) : ResultRow :=
  {| row_k := k; row_method := method;
     row_recall := np_mean (map rec_recall (records_of metrics method));
     row_mrr := np_mean (map rec_mrr (records_of metrics method)) |}.

(** A table whose hybrid pipeline times out when asked for five results. *)
Definition flaky_table : Table unit := {|
  vector_search := fun _ _ => Ok ["1"; "2"];
  fts_search := fun _ _ => Ok ["2"; "1"];
  hybrid_search := fun _ _ k =>
    if k =? 5 then Raise (AdapterError "timeout") else Ok ["3"; "2"]
|}.

(** A table whose three pipelines always answer. *)
Definition steady_table : Table unit := {|
  vector_search := fun _ _ => Ok ["1"; "2"];
  fts_search := fun _ _ => Ok ["2"; "1"];
  hybrid_search := fun _ _ _ => Ok ["3"; "2"]
|}.

(** *** Embedding in batches *)

Section BatchEmbed.
Context {V E : Type}.
(** [openai.embeddings.create(model=model, input=batch)], seen as the list
    of the [embedding] fields of [response.data], and the conversion
    [np.array(.., dtype='float32')] of one of them. *)
Variable embeddings_create : list string -> result (list V).
Variable np_array : V -> E.

Definition batch_size : nat := 100.

(** The loop of [batch_embed] over the start positions [i]. *)
Fixpoint batch_embed_loop (texts : list string) (starts : list nat) (embeddings : list E)
  : result (list E) :=
  match starts with
  | [] => Ok embeddings
  | i :: starts' =>
      let batch := Py.slice texts i (i + batch_size) in
      response ← embeddings_create batch;
      let emb := map np_array response in
      batch_embed_loop texts starts' (embeddings ++ emb)
  end.

Definition batch_embed (texts : list string) : result (list E) :=
  batch_embed_loop texts (Py.range_step (length texts) batch_size) [].

End BatchEmbed.

(** *** Generating the synthetic queries *)

(** The fields of the item that the prompt shows, in the order of the
    f-string. *)
Definition prompt_fields : list string :=
  ["title"; "description"; "category"; "subcategory"; "product_type"; "price";
   "material"; "attributes"; "occasions"].

(** The double quote. *)
Definition is_quote (c : ascii) : bool := Ascii.eqb c (ascii_of_nat 34).

Section Synthetic.
(** The values of an item, and a [str] as such a value. *)
Variable Value : Type.
Variable str : string -> Value.
(** The content of the first choice of the chat completion, for the prompt
    made of the query type drawn and of the fields read. *)
Variable complete : list Value -> result string.

(** [item[key]]. *)
Definition getfield (item : gmap string Value) (key : string) : result Value :=
  match item !! key with
  | Some v => Ok v
  | None => Raise KeyError
  end.

(** The returned dict is the [query] entry updated with the entries of
    [item]: an entry of [item] wins. *)
Definition generate_synthetic_query (item : gmap string Value)
  : result (gmap string Value) :=
  fields ← mapM (getfield item) prompt_fields;
  content ← complete fields;
  let query := Py.strip_chars is_quote (Py.strip content) in
  Ok (item ∪ {["query" := str query]}).

End Synthetic.

(** An item with the fields of the prompt, and a model that answers in
    quotes. *)
Definition sample_item : gmap string string :=
  list_to_map
    [("id", "1"); ("title", "Lace Detail Sleeveless Top"); ("description", "A top");
     ("category", "Women"); ("subcategory", "Tops"); ("product_type", "Tank Tops");
     ("price", "181.04"); ("material", "Cotton"); ("attributes", "[]");
     ("occasions", "[]")].

Definition sample_answer : string :=
  String (ascii_of_nat 34) (String.append "sleeveless lace top " (String (ascii_of_nat 34) " ")).

(** *** Preparing the evaluation data *)

(** An entry of [synthetic_queries], by its generated [query] and by
    [str(item["id"])]. *)
Record SyntheticQuery : Type := { sq_query : string; sq_id : string }.

(** The list comprehensions that build [queries] and [expected_ids]. *)
Definition prepare_queries (synthetic_queries : list SyntheticQuery) : list string :=
  map sq_query synthetic_queries.

Definition prepare_expected_ids (synthetic_queries : list SyntheticQuery)
  : list (list string) :=
  map (fun item => [sq_id item]) synthetic_queries.

End Hybrid.

(** ** GRPO notebook: the recall reward *)

Module Grpo.

(** [label in doc] for two strings: [label] occurs in [doc].  Strings are
    held as the bytes of their UTF-8 encoding, on which one text occurs in
    another exactly when its characters do. *)
Fixpoint occurs_in (label doc : string) : bool :=
  String.prefix label doc
  || match doc with
     | EmptyString => false
     | String _ rest => occurs_in label rest
     end.

(** [re.sub] of every character outside [a-z0-9] by a space.  A character
    of several bytes gives several spaces, which [split] reads as one
    separator. *)
Definition keep_alnum (c : ascii) : ascii :=
  let n := nat_of_ascii c in
  if ((97 <=? n)%nat && (n <=? 122)%nat) || ((48 <=? n)%nat && (n <=? 57)%nat)
  then c else " "%char.

Fixpoint sub_non_alnum (s : string) : string :=
  match s with
  | EmptyString => EmptyString
  | String c rest => String (keep_alnum c) (sub_non_alnum rest)
  end.

Section Rewards.
(** [str.lower]: Python lowercases every cased character of the text by
    the Unicode case mapping, not the ASCII letters alone; the rewards are
    given for whatever this function returns. *)
Variable lower : string -> string.

(** [recall_score(example, pred)], on [example.answers] and
    [pred.retrieved_docs]; the three [print] calls are left out. *)
Definition recall_score (answers retrieved_docs : list string) : result float :=
  let predictions := map lower retrieved_docs in
  let labels := map lower answers in
  if Py.is_empty labels then Ok 0%float
  else
    let hits :=
      Py.sum (map (fun label =>
                     if existsb (fun doc => occurs_in label doc) predictions
                     then 1 else 0)
                  labels) in
    Py.int_truediv hits (Py.len labels).

(** *** The token-overlap reward *)

(** The inner function [normalize] of [contains_answer]. *)
Definition normalize (text : string) : list string :=
  Py.split (sub_non_alnum (lower text)).

(** The [for doc in docs] loop of [contains_answer]: [true] when the
    function returns 1.0 from inside it. *)
Fixpoint docs_loop (answer_tokens : gset string) (docs : list string) : result bool :=
  match docs with
  | [] => Ok false
  | doc :: rest =>
      let doc_tokens : gset string := list_to_set (normalize doc) in
      q ← Py.int_truediv (Z.of_nat (size (answer_tokens ∩ doc_tokens)))
                         (Z.of_nat (size answer_tokens));
      if PrimFloat.ltb 0.75 q then Ok true else docs_loop answer_tokens rest
  end.

(** The [for answer in answers] loop. *)
Fixpoint answers_loop (answers docs : list string) : result float :=
  match answers with
  | [] => Ok 0%float
  | answer :: rest =>
      let answer_tokens : gset string := list_to_set (normalize answer) in
      matched ← docs_loop answer_tokens docs;
      if (matched : bool) then Ok 1%float else answers_loop rest docs
  end.

(** [contains_answer(example, pred)], on [example.answers] and
    [pred.retrieved_docs]. *)
Definition contains_answer (answers retrieved_docs : list string) : result float :=
  let docs := map lower retrieved_docs in
  let answers := map lower answers in
  answers_loop answers docs.

End Rewards.

(** A character of [a-z0-9]: the characters that [normalize] keeps of the
    lowercased text. *)
Definition is_token_char (c : ascii) : bool :=
  let n := nat_of_ascii c in
  ((48 <=? n)%nat && (n <=? 57)%nat) || ((97 <=? n)%nat && (n <=? 122)%nat).

(** [str.lower] on a text of ASCII characters, where it folds the letters A
    to Z and nothing else; used on the ASCII texts of the examples. *)
Definition lower_char (c : ascii) : ascii :=
  let n := nat_of_ascii c in
  if (65 <=? n)%nat && (n <=? 90)%nat then ascii_of_nat (n + 32) else c.

Fixpoint ascii_lower (s : string) : string :=
  match s with
  | EmptyString => EmptyString
  | String c rest => String (lower_char c) (ascii_lower rest)
  end.

(** *** The BM25 search wrapper *)

(** [run[key] = value] on a dict kept as the list of its items in insertion
    order: a key already present keeps its place and takes the new value. *)
Definition dict_set (run : list (string * float)) (key : string) (value : float)
  : list (string * float) :=
  if existsb (fun kv => String.eqb (fst kv) key) run
  then map (fun kv => if String.eqb (fst kv) key then (key, value) else kv) run
  else run ++ [(key, value)].

Section Search.
Variable corpus : list string.
(** Tokenizing the query and [retriever.retrieve]: the first row of the
    document indices and the first row of the scores. *)
Variable retrieve : string -> Z -> result (list nat * list float).

(** The dict comprehension over [zip(results[0], scores[0])]. *)
Fixpoint build_run (pairs : list (nat * float)) (run : list (string * float))
  : result (list (string * float)) :=
  match pairs with
  | [] => Ok run
  | (doc, score) :: rest =>
      key ← Hybrid.index corpus doc;
      build_run rest (dict_set run key score)
  end.

Definition search (query : string) (k : Z) : result (list string) :=
  rows ← retrieve query k;
  run ← build_run (zip (fst rows) (snd rows)) [];
  Ok (map fst run).

End Search.

(** *** The data set and its split *)

(** A record of the evaluation set: the keys [query], [answer] and
    [document]. *)
Record DatasetRow : Type := {
  ds_query : string;
  ds_answer : string;
  ds_document : string
}.

(** A [dspy.Example] with the fields [question] and [answers]. *)
Record Example : Type := { question : string; answers : list string }.

(** The list comprehension that builds [examples]; its filter is the truth
    value of [ex["answer"].strip()], a string that is not empty. *)
Definition make_examples (ds : list DatasetRow) : list Example :=
  map (fun ex => {| question := ds_query ex; answers := [ds_answer ex] |})
      (List.filter (fun ex => negb (String.eqb (Py.strip (ds_answer ex)) EmptyString)) ds).

(** The three slices [examples[:100]], [examples[100:150]] and
    [examples[150:200]], after the shuffle. *)
Definition split_examples (shuffled : list Example)
  : list Example * list Example * list Example :=
  (Py.slice shuffled 0 100, Py.slice shuffled 100 150, Py.slice shuffled 150 200).

End Grpo.

(** * Properties *)

#[local] Set Warnings "-inexact-float,-clear-no-such-hyp".

Ltac float_discr :=
  let H := fresh in
  intros H; apply (f_equal result_repr) in H; vm_compute in H; discriminate.

Lemma contains_spec (x : string) (l : list string) :
  Py.contains x l = true <-> x ∈ l.
Proof.
  unfold Py.contains. rewrite existsb_exists. split.
  - intros (y & Hy & Heq). apply String.eqb_eq in Heq. subst y.
    by apply list_elem_of_In.
  - intros Hx. exists x. split; [by apply list_elem_of_In | apply String.eqb_refl].
Qed.

Lemma contains_false (x : string) (l : list string) :
  Py.contains x l = false <-> x ∉ l.
Proof.
  rewrite <- contains_spec. destruct (Py.contains x l); split; congruence.
Qed.

Lemma is_empty_spec {A : Type} (l : list A) : Py.is_empty l = true <-> l = [].
Proof. destruct l; simpl; split; congruence. Qed.

Lemma len_pos {A : Type} (l : list A) : l <> [] -> 0 < Py.len l.
Proof. destruct l; [congruence | unfold Py.len; simpl; lia]. Qed.

Lemma int_truediv_nonzero (a b : Z) :
  b <> 0 -> Py.int_truediv a b = Ok (Py.float_of_int a / Py.float_of_int b)%float.
Proof. intros Hb. unfold Py.int_truediv. by destruct (Z.eqb_spec b 0). Qed.

(** ** The generator sums count positions *)

Lemma fold_add_shift (l : list Z) (a : Z) : fold_left Z.add l a = a + fold_left Z.add l 0.
Proof.
  revert a. induction l as [|x l IH]; intros a; simpl; [lia|].
  rewrite (IH (a + x)), (IH (0 + x)). lia.
Qed.

Lemma count_hits_filter (xs ys : list string) :
  ToolCalls.count_hits xs ys =
  Z.of_nat (length (List.filter (fun t => Py.contains t ys) xs)).
Proof.
  unfold ToolCalls.count_hits, Py.sum.
  induction xs as [|x xs IH]; simpl; [done|].
  destruct (Py.contains x ys); simpl; [|exact IH].
  rewrite fold_add_shift, IH. lia.
Qed.

Lemma count_hits_bounds (xs ys : list string) :
  0 <= ToolCalls.count_hits xs ys <= Py.len xs.
Proof.
  rewrite count_hits_filter. unfold Py.len.
  pose proof (List.filter_length_le (fun t => Py.contains t ys) xs). lia.
Qed.

(** On a list without repetitions the positions counted are the members of
    the intersection of the two collections. *)
Lemma filter_size_inter (xs ys : list string) :
  NoDup xs ->
  length (List.filter (fun t => Py.contains t ys) xs) =
  size ((list_to_set xs : gset string) ∩ list_to_set ys).
Proof.
  induction 1 as [|x xs Hx Hnd IH]; simpl.
  - by rewrite intersection_empty_l_L, size_empty.
  - destruct (Py.contains x ys) eqn:Hc.
    + apply contains_spec in Hc. simpl. rewrite IH.
      replace (({[x]} ∪ list_to_set xs) ∩ list_to_set ys : gset string)
        with ({[x]} ∪ (list_to_set xs ∩ list_to_set ys) : gset string)
        by set_solver.
      rewrite (size_union ({[x]} : gset string)); [|set_solver].
      by rewrite size_singleton.
    + apply contains_false in Hc. rewrite IH. f_equal. set_solver.
Qed.

(** ** Per-query metrics of the tool-selection notebook *)

(** C6: the precision of the empty result list is 0.0 against every
    expected collection, the empty one included; a frame row with no actual
    call is scored with precision 0.0, also when nothing was expected and
    its recall is 1.0. *)
Theorem precision_empty_result (expected : list string) :
  ToolCalls.calculate_precision [] expected = Ok 0%float
  /\ ToolCalls.calculate_precision [] [] = Ok 0%float
  /\ forall (query : string) (time : float),
       let x := {| ToolCalls.query := query; ToolCalls.expected := expected;
                   ToolCalls.actual := []; ToolCalls.time := time |} in
       ToolCalls.calculate_precision_recall_for_queries [x] =
         Ok [ {| ToolCalls.row := x; ToolCalls.precision := 0;
                 ToolCalls.recall := if Py.is_empty expected then 1 else 0 |} ].
Proof.
  split; [reflexivity|]. split; [reflexivity|].
  intros query time x. unfold ToolCalls.calculate_precision_recall_for_queries.
  subst x. simpl. by destruct expected.
Qed.

(** C7: on result [a, b, c] and expected [b], precision is 0.33, recall is
    1.0 (by either recall function) and the reciprocal rank is 0.5. *)
Theorem scenario_D :
  ToolCalls.calculate_precision ["a"; "b"; "c"] ["b"] = Ok 0.33%float
  /\ ToolCalls.calculate_recall ["a"; "b"; "c"] ["b"] = Ok 1%float
  /\ Hybrid.recall ["a"; "b"; "c"] ["b"] = Ok 1%float
  /\ Hybrid.mrr ["a"; "b"; "c"] ["b"] = Ok 0.5%float.
Proof. repeat split; vm_compute; reflexivity. Qed.

(** C1, as stated, fails on [recall_score]: with no expected answer it
    returns 0.0, not 1.0. *)
Lemma recall_score_no_answers_not_one :
  Grpo.recall_score Grpo.ascii_lower [] ["a document"] = Ok 0%float
  /\ Grpo.recall_score Grpo.ascii_lower [] ["a document"] <> Ok 1%float.
Proof. split; [reflexivity | float_discr]. Qed.

(** C1 (amended): against an empty expected list [calculate_recall] returns
    1.0 for every result list, and [recall_score] returns 0.0 for every list
    of retrieved documents; neither raises. *)
Theorem recall_empty_expected (lower : string -> string) (result : list string) :
  ToolCalls.calculate_recall result [] = Ok 1%float
  /\ Grpo.recall_score lower [] result = Ok 0%float.
Proof. split; reflexivity. Qed.

(** C3, as stated, fails: a repeated item is counted at each occurrence, so
    result [a, a] against expected [a] scores 1.0 and not 0.5; and the value
    returned for one hit in three is 0.33, not the unrounded quotient. *)
Lemma precision_counts_duplicates :
  ToolCalls.calculate_precision ["a"; "a"] ["a"] = Ok 1%float
  /\ ToolCalls.calculate_precision ["a"; "a"] ["a"] <> Ok 0.5%float
  /\ ToolCalls.calculate_precision ["a"; "b"; "c"] ["b"] = Ok 0.33%float
  /\ ToolCalls.calculate_precision ["a"; "b"; "c"] ["b"] <> Ok (1 / 3)%float.
Proof.
  split; [vm_compute; reflexivity|].
  split; [vm_compute; float_discr|].
  split; [vm_compute; reflexivity|].
  vm_compute; float_discr.
Qed.

(** C3 (amended): for a non-empty result list, precision is the quotient of
    the number of positions of [result] whose item is in [expected] by the
    length of [result], rounded to two decimals in the returned value; when
    [result] has no repeated item that number is the size of the
    intersection. *)
Theorem precision_nonempty (result expected : list string) :
  result <> [] ->
  let hits := length (List.filter (fun t => Py.contains t expected) result) in
  ToolCalls.calculate_precision result expected =
    Ok (Py.round2 (Py.float_of_int (Z.of_nat hits) / Py.float_of_int (Py.len result)))
  /\ (NoDup result ->
      hits = size ((list_to_set result : gset string) ∩ list_to_set expected)).
Proof.
  intros Hne hits. split.
  - unfold ToolCalls.calculate_precision.
    destruct result as [|x result]; [congruence|]. cbn [Py.is_empty].
    rewrite count_hits_filter, int_truediv_nonzero; [reflexivity|].
    unfold Py.len; simpl; lia.
  - apply filter_size_inter.
Qed.

Lemma precision_nonempty_witness :
  ToolCalls.calculate_precision ["a"; "b"] ["b"] = Ok 0.5%float
  /\ 1%nat = size ((list_to_set ["a"; "b"] : gset string) ∩ list_to_set ["b"]).
Proof.
  destruct (precision_nonempty ["a"; "b"] ["b"]) as [H1 H2]; [discriminate|].
  split; [exact H1|].
  apply H2. repeat constructor; set_solver.
Defined.

(** ** Reciprocal rank *)

Lemma float_div_int_nonzero (x : float) (b : Z) :
  b <> 0 -> Py.float_div_int x b = Ok (x / Py.float_of_int b)%float.
Proof. intros Hb. unfold Py.float_div_int. by destruct (Z.eqb_spec b 0). Qed.

Lemma mrr_loop_first_match (expected : list string) :
  forall (retrieved : list string) (rank : Z) (i : nat) (doc_id : string),
    0 < rank ->
    retrieved !! i = Some doc_id ->
    doc_id ∈ expected ->
    (forall j d, (j < i)%nat -> retrieved !! j = Some d -> d ∉ expected) ->
    Hybrid.mrr_loop rank retrieved expected =
      Ok (1 / Py.float_of_int (rank + Z.of_nat i))%float.
Proof.
  induction retrieved as [|d rest IH]; intros rank i doc_id Hrank Hi Hin Hbefore.
  - discriminate.
  - destruct i as [|i]; simpl in *.
    + injection Hi as Hi. subst d. apply contains_spec in Hin. rewrite Hin.
      rewrite Z.add_0_r. apply float_div_int_nonzero. lia.
    + assert (Hd : Py.contains d expected = false).
      { apply contains_false. apply (Hbefore 0%nat); [lia | done]. }
      rewrite Hd. rewrite (IH (rank + 1) i doc_id); [| lia | done | done |].
      * do 3 f_equal. lia.
      * intros j d' Hj Hd'. apply (Hbefore (S j)); [lia | done].
Qed.

Lemma mrr_loop_no_match (expected : list string) :
  forall (retrieved : list string) (rank : Z),
    (forall d, d ∈ retrieved -> d ∉ expected) ->
    Hybrid.mrr_loop rank retrieved expected = Ok 0%float.
Proof.
  induction retrieved as [|d rest IH]; intros rank Hnone; simpl; [done|].
  assert (Hd : Py.contains d expected = false).
  { apply contains_false, Hnone. by left. }
  rewrite Hd. apply IH. intros d' Hd'. apply Hnone. by right.
Qed.

Lemma mrr_loop_returns (expected : list string) :
  forall (retrieved : list string) (rank : Z),
    0 < rank -> exists m, Hybrid.mrr_loop rank retrieved expected = Ok m.
Proof.
  induction retrieved as [|d rest IH]; intros rank Hrank; simpl; [by eexists|].
  destruct (Py.contains d expected).
  - rewrite float_div_int_nonzero by lia. by eexists.
  - apply IH. lia.
Qed.

(** C5: [mrr] returns 1/rank for the first (1-indexed) rank whose item is
    in [expected], and 0.0 when no item of the result is in [expected]; a
    match at rank 1 scores 1.0 and a first match at rank 2 scores 0.5. *)
Theorem mrr_first_match (retrieved expected : list string) :
  (forall (i : nat) (doc_id : string),
      retrieved !! i = Some doc_id ->
      doc_id ∈ expected ->
      (forall j d, (j < i)%nat -> retrieved !! j = Some d -> d ∉ expected) ->
      Hybrid.mrr retrieved expected = Ok (1 / Py.float_of_int (Z.of_nat i + 1))%float)
  /\ ((forall d, d ∈ retrieved -> d ∉ expected) ->
      Hybrid.mrr retrieved expected = Ok 0%float)
  /\ (forall d rest, retrieved = d :: rest -> d ∈ expected ->
      Hybrid.mrr retrieved expected = Ok 1%float)
  /\ (forall d1 d2 rest, retrieved = d1 :: d2 :: rest -> d1 ∉ expected -> d2 ∈ expected ->
      Hybrid.mrr retrieved expected = Ok 0.5%float).
Proof.
  unfold Hybrid.mrr. repeat split.
  - intros i doc_id Hi Hin Hbefore.
    rewrite (mrr_loop_first_match expected retrieved 1 i doc_id); try done.
    do 3 f_equal. lia.
  - apply mrr_loop_no_match.
  - intros d rest -> Hin.
    by rewrite (mrr_loop_first_match expected (d :: rest) 1 0 d); try done; try lia.
  - intros d1 d2 rest -> Hout Hin.
    rewrite (mrr_loop_first_match expected (d1 :: d2 :: rest) 1 1 d2); try done.
    intros [|j] d Hj; [|lia]. by intros [= <-].
Qed.

Lemma mrr_first_match_witness :
  Hybrid.mrr ["x"; "y"; "b"; "z"] ["b"; "c"] = Ok (1 / 3)%float
  /\ Hybrid.mrr ["x"; "y"] ["b"] = Ok 0%float
  /\ Hybrid.mrr ["b"; "y"] ["b"] = Ok 1%float
  /\ Hybrid.mrr ["x"; "b"] ["b"] = Ok 0.5%float.
Proof.
  split; [|split; [|split]].
  - apply (proj1 (mrr_first_match ["x"; "y"; "b"; "z"] ["b"; "c"]) 2%nat "b").
    + reflexivity.
    + set_solver.
    + intros [|[|j]] d Hj Hd; [| |lia]; simplify_eq/=; set_solver.
  - apply (proj1 (proj2 (mrr_first_match ["x"; "y"] ["b"]))). set_solver.
  - apply (proj1 (proj2 (proj2 (mrr_first_match ["b"; "y"] ["b"]))) "b" ["y"]);
      [reflexivity | set_solver].
  - apply (proj2 (proj2 (proj2 (mrr_first_match ["x"; "b"] ["b"]))) "x" "b" []);
      [reflexivity | set_solver | set_solver].
Defined.

(** ** Division by zero *)

Lemma hybrid_recall_nonempty (retrieved expected : list string) :
  expected <> [] -> exists r, Hybrid.recall retrieved expected = Ok r.
Proof.
  intros Hne. unfold Hybrid.recall.
  rewrite float_div_int_nonzero; [by eexists|].
  apply len_pos in Hne. lia.
Qed.

Lemma hybrid_recall_inv (retrieved expected : list string) (r : float) :
  Hybrid.recall retrieved expected = Ok r -> expected <> [].
Proof. intros H ->. discriminate. Qed.

Lemma precision_returns (result expected : list string) :
  exists p, ToolCalls.calculate_precision result expected = Ok p.
Proof.
  unfold ToolCalls.calculate_precision.
  destruct result as [|x result]; [by eexists|]. cbn [Py.is_empty].
  rewrite int_truediv_nonzero; [by eexists|]. unfold Py.len; simpl; lia.
Qed.

Lemma recall_returns (result expected : list string) :
  exists r, ToolCalls.calculate_recall result expected = Ok r.
Proof.
  unfold ToolCalls.calculate_recall.
  destruct expected as [|y expected]; [by eexists|].
  destruct result as [|x result]; [by eexists|]. cbn [Py.is_empty].
  rewrite int_truediv_nonzero; [by eexists|]. unfold Py.len; simpl; lia.
Qed.

(** C2: [calculate_precision], [calculate_recall] and [mrr] return on every
    input, but [recall] of the hybrid-vs-vector notebook divides by the
    length of [expected] unguarded and raises on the empty list. *)
Theorem hybrid_recall_unguarded (result expected : list string) :
  (exists p, ToolCalls.calculate_precision result expected = Ok p)
  /\ (exists r, ToolCalls.calculate_recall result expected = Ok r)
  /\ (exists m, Hybrid.mrr result expected = Ok m)
  /\ Hybrid.recall result [] = Raise ZeroDivisionError.
Proof.
  split; [apply precision_returns|]. split; [apply recall_returns|].
  split; [apply mrr_loop_returns; lia | reflexivity].
Qed.

(** ** The evaluation driver of the hybrid-vs-vector notebook *)

Lemma bind_inv {A B : Type} (m : result A) (f : A -> result B) (b : B) :
  (m ≫= f) = Ok b -> exists a, m = Ok a /\ f a = Ok b.
Proof. destruct m as [a|e]; simpl; [eauto | discriminate]. Qed.

Lemma is_ok_true {A : Type} (m : result A) : is_ok m = true <-> exists a, m = Ok a.
Proof.
  destruct m; simpl; split; eauto; try discriminate. by intros [? ?].
Qed.

Lemma is_ok_false {A : Type} (m : result A) : is_ok m = false <-> exists e, m = Raise e.
Proof.
  destruct m; simpl; split; eauto; try discriminate. by intros [? ?].
Qed.

Lemma index_inv {A : Type} (l : list A) (idx : nat) (x : A) :
  Hybrid.index l idx = Ok x <-> l !! idx = Some x.
Proof. unfold Hybrid.index. destruct (l !! idx); split; congruence. Qed.

Lemma score_returns (search : result (list string)) (eid : list string) :
  is_ok search = true -> eid <> [] -> exists r, Hybrid.score search eid = Ok r.
Proof.
  intros [retrieved ->]%is_ok_true Hne. unfold Hybrid.score. simpl.
  destruct (hybrid_recall_nonempty retrieved eid Hne) as [r ->]. simpl.
  destruct (mrr_loop_returns eid retrieved 1 ltac:(lia)) as [m Hm].
  unfold Hybrid.mrr. rewrite Hm. simpl. by eexists.
Qed.

Lemma score_inv (search : result (list string)) (eid : list string) (r : Hybrid.MetricRecord) :
  Hybrid.score search eid = Ok r -> is_ok search = true /\ eid <> [].
Proof.
  unfold Hybrid.score. intros (retrieved & -> & H)%bind_inv.
  apply bind_inv in H as (x & Hx%hybrid_recall_inv & _). done.
Qed.

Section EvaluateFacts.
Context {E : Type} (tbl : Hybrid.Table E).
Context (expected_ids : list (list string)) (embeddings : list E) (k : Z).

Lemma evaluate_step_inv (idx : nat) (query : string) (metrics metrics' : Hybrid.Metrics) :
  Hybrid.evaluate_step tbl expected_ids embeddings k idx query metrics = Ok metrics' ->
  Hybrid.cell_ok tbl expected_ids embeddings k idx query
  /\ forall method, exists r,
       Hybrid.cell_record tbl expected_ids embeddings k method idx query = Ok r
       /\ Hybrid.records_of metrics' method = Hybrid.records_of metrics method ++ [r].
Proof.
  unfold Hybrid.evaluate_step.
  intros (eid & Heid & H)%bind_inv.
  apply bind_inv in H as (emb & Hemb & H).
  apply bind_inv in H as (s & Hs & H).
  apply bind_inv in H as (l & Hl & H).
  apply bind_inv in H as (h & Hh & H).
  injection H as <-. split.
  - exists eid, emb. apply index_inv in Heid as Heid', Hemb as Hemb'.
    destruct (score_inv _ _ _ Hs), (score_inv _ _ _ Hl), (score_inv _ _ _ Hh).
    done.
  - intros method. unfold Hybrid.cell_record, Hybrid.records_of, Hybrid.strategy_search.
    rewrite Heid, Hemb. simpl.
    destruct (String.eqb method "semantic"); [by eexists|].
    destruct (String.eqb method "lexical"); by eexists.
Qed.

Lemma evaluate_step_returns (idx : nat) (query : string) (metrics : Hybrid.Metrics) :
  Hybrid.cell_ok tbl expected_ids embeddings k idx query ->
  exists metrics',
    Hybrid.evaluate_step tbl expected_ids embeddings k idx query metrics = Ok metrics'.
Proof.
  intros (eid & emb & Heid & Hne & Hemb & Hs & Hl & Hh).
  unfold Hybrid.evaluate_step.
  apply index_inv in Heid, Hemb. rewrite Heid, Hemb. simpl.
  destruct (score_returns _ eid Hs Hne) as [s ->].
  destruct (score_returns _ eid Hl Hne) as [l ->].
  destruct (score_returns _ eid Hh Hne) as [h ->].
  simpl. by eexists.
Qed.

Lemma evaluate_loop_inv (queries : list string) :
  forall (idx : nat) (metrics metrics' : Hybrid.Metrics),
    Hybrid.evaluate_loop tbl expected_ids embeddings k idx queries metrics = Ok metrics' ->
    (forall i query, queries !! i = Some query ->
       Hybrid.cell_ok tbl expected_ids embeddings k (idx + i) query)
    /\ forall method, exists rs,
         Hybrid.group_records_from tbl expected_ids embeddings k method idx queries = Ok rs
         /\ Hybrid.records_of metrics' method = Hybrid.records_of metrics method ++ rs.
Proof.
  induction queries as [|query rest IH]; intros idx metrics metrics' Hloop; simpl in Hloop.
  - injection Hloop as <-. split; [intros i q; by rewrite lookup_nil|].
    intros method. exists []. by rewrite app_nil_r.
  - apply bind_inv in Hloop as (metrics1 & Hstep & Hrest).
    apply evaluate_step_inv in Hstep as [Hcell Hstep].
    apply IH in Hrest as [Hcells Hrest]. split.
    + intros [|i] q Hq; simpl in Hq.
      * injection Hq as <-. by rewrite Nat.add_0_r.
      * replace (idx + S i)%nat with (S idx + i)%nat by lia. by apply Hcells.
    + intros method.
      destruct (Hstep method) as (r & Hr & Hone), (Hrest method) as (rs & Hrs & Hmany).
      exists (r :: rs). simpl. rewrite Hr, Hrs. split; [done|].
      rewrite Hmany, Hone. by rewrite <- app_assoc.
Qed.

Lemma evaluate_loop_returns (queries : list string) :
  forall (idx : nat) (metrics : Hybrid.Metrics),
    (forall i query, queries !! i = Some query ->
       Hybrid.cell_ok tbl expected_ids embeddings k (idx + i) query) ->
    exists metrics',
      Hybrid.evaluate_loop tbl expected_ids embeddings k idx queries metrics = Ok metrics'.
Proof.
  induction queries as [|query rest IH]; intros idx metrics Hcells; simpl; [by eexists|].
  destruct (evaluate_step_returns idx query metrics) as [metrics1 ->].
  { specialize (Hcells 0%nat query eq_refl). by rewrite Nat.add_0_r in Hcells. }
  simpl. apply IH. intros i q Hq.
  replace (S idx + i)%nat with (idx + S i)%nat by lia. by apply Hcells.
Qed.

End EvaluateFacts.

Lemma group_records_from_length {E : Type} (tbl : Hybrid.Table E)
    (expected_ids : list (list string)) (embeddings : list E) (k : Z) (method : string)
    (queries : list string) :
  forall (idx : nat) (rs : list Hybrid.MetricRecord),
    Hybrid.group_records_from tbl expected_ids embeddings k method idx queries = Ok rs ->
    length rs = length queries.
Proof.
  induction queries as [|query rest IH]; intros idx rs Hrs; simpl in Hrs.
  - by injection Hrs as <-.
  - apply bind_inv in Hrs as (r & _ & Hrs).
    apply bind_inv in Hrs as (rs' & Hrest & Hrs).
    injection Hrs as <-. simpl. f_equal. by apply (IH (S idx)).
Qed.

Lemma evaluate_search_inv {E : Type} (tbl : Hybrid.Table E) (queries : list string)
    (expected_ids : list (list string)) (embeddings : list E) (k : Z)
    (metrics : Hybrid.Metrics) :
  Hybrid.evaluate_search tbl queries expected_ids embeddings k = Ok metrics ->
  Hybrid.calls_succeed tbl queries expected_ids embeddings k
  /\ forall method,
       Hybrid.group_records tbl queries expected_ids embeddings k method =
         Ok (Hybrid.records_of metrics method).
Proof.
  intros [Hcells Hrecs]%evaluate_loop_inv. split; [exact Hcells|].
  intros method. destruct (Hrecs method) as (rs & Hrs & Heq).
  unfold Hybrid.group_records. rewrite Hrs, Heq. f_equal.
  unfold Hybrid.records_of. simpl.
  by destruct (String.eqb method "semantic"), (String.eqb method "lexical").
Qed.

Lemma evaluate_search_returns {E : Type} (tbl : Hybrid.Table E) (queries : list string)
    (expected_ids : list (list string)) (embeddings : list E) (k : Z) :
  Hybrid.calls_succeed tbl queries expected_ids embeddings k ->
  exists metrics, Hybrid.evaluate_search tbl queries expected_ids embeddings k = Ok metrics.
Proof. intros Hcalls. by apply evaluate_loop_returns. Qed.

Section ExperimentFacts.
Variable np_mean : list float -> float.
Context {E : Type} (tbl : Hybrid.Table E).
Context (queries : list string) (expected_ids : list (list string)).
Context (embeddings : list E).

Lemma experiment_step_unfold (k : Z) (results : list Hybrid.ResultRow) :
  Hybrid.experiment_step np_mean tbl queries expected_ids embeddings k results =
  (metrics ← Hybrid.evaluate_search tbl queries expected_ids embeddings k;
   Ok (results ++ map (Hybrid.group_row np_mean k metrics) Hybrid.strategies)).
Proof.
  unfold Hybrid.experiment_step.
  destruct (Hybrid.evaluate_search tbl queries expected_ids embeddings k) as [metrics|e];
    simpl; [|done].
  by rewrite <- !app_assoc.
Qed.

(** The run as three evaluations, one per configured k. *)
Lemma run_experiment_unfold :
  Hybrid.run_experiment np_mean tbl queries expected_ids embeddings =
  (m3 ← Hybrid.evaluate_search tbl queries expected_ids embeddings 3;
   m5 ← Hybrid.evaluate_search tbl queries expected_ids embeddings 5;
   m10 ← Hybrid.evaluate_search tbl queries expected_ids embeddings 10;
   Ok (map (Hybrid.group_row np_mean 3 m3) Hybrid.strategies
       ++ map (Hybrid.group_row np_mean 5 m5) Hybrid.strategies
       ++ map (Hybrid.group_row np_mean 10 m10) Hybrid.strategies)).
Proof.
  unfold Hybrid.run_experiment, Hybrid.k_values. cbn [Hybrid.experiment_loop].
  rewrite !experiment_step_unfold.
  destruct (Hybrid.evaluate_search tbl queries expected_ids embeddings 3); simpl; [|done].
  rewrite !experiment_step_unfold.
  destruct (Hybrid.evaluate_search tbl queries expected_ids embeddings 5); simpl; [|done].
  rewrite !experiment_step_unfold.
  by destruct (Hybrid.evaluate_search tbl queries expected_ids embeddings 10).
Qed.

Lemma run_experiment_inv (rows : list Hybrid.ResultRow) :
  Hybrid.run_experiment np_mean tbl queries expected_ids embeddings = Ok rows ->
  forall k, k ∈ Hybrid.k_values ->
    Hybrid.calls_succeed tbl queries expected_ids embeddings k.
Proof.
  rewrite run_experiment_unfold.
  intros (m3 & [H3 _]%evaluate_search_inv & H)%bind_inv.
  apply bind_inv in H as (m5 & [H5 _]%evaluate_search_inv & H).
  apply bind_inv in H as (m10 & [H10 _]%evaluate_search_inv & _).
  intros k Hk. unfold Hybrid.k_values in Hk.
  repeat (apply elem_of_cons in Hk as [->|Hk]; [done|]).
  by apply elem_of_nil in Hk.
Qed.

Lemma run_experiment_returns :
  (forall k, k ∈ Hybrid.k_values ->
     Hybrid.calls_succeed tbl queries expected_ids embeddings k) ->
  exists rows,
    Hybrid.run_experiment np_mean tbl queries expected_ids embeddings = Ok rows
    /\ map Hybrid.row_key rows = Hybrid.report_keys
    /\ forall r, r ∈ rows -> exists records,
         Hybrid.group_records tbl queries expected_ids embeddings
           (Hybrid.row_k r) (Hybrid.row_method r) = Ok records
         /\ length records = length queries
         /\ Hybrid.row_recall r = np_mean (map Hybrid.rec_recall records)
         /\ Hybrid.row_mrr r = np_mean (map Hybrid.rec_mrr records).
Proof.
  intros Hcalls. rewrite run_experiment_unfold.
  destruct (evaluate_search_returns tbl queries expected_ids embeddings 3) as [m3 H3];
    [apply Hcalls; set_solver|].
  destruct (evaluate_search_returns tbl queries expected_ids embeddings 5) as [m5 H5];
    [apply Hcalls; set_solver|].
  destruct (evaluate_search_returns tbl queries expected_ids embeddings 10) as [m10 H10];
    [apply Hcalls; set_solver|].
  rewrite H3, H5, H10. simpl. eexists. split; [reflexivity|]. split; [reflexivity|].
  apply evaluate_search_inv in H3 as [_ H3], H5 as [_ H5], H10 as [_ H10].
  intros r Hr.
  assert (Hlen : forall k method records,
             Hybrid.group_records tbl queries expected_ids embeddings k method = Ok records ->
             length records = length queries).
  { intros k method records. apply group_records_from_length. }
  repeat (apply elem_of_cons in Hr as [->|Hr];
          [eexists; split; [by auto|]; split; [by eauto | by split]|]).
  by apply elem_of_nil in Hr.
Qed.

End ExperimentFacts.

Lemma report_keys_eq :
  Hybrid.report_keys =
  [(3, "semantic"); (3, "lexical"); (3, "hybrid");
   (5, "semantic"); (5, "lexical"); (5, "hybrid");
   (10, "semantic"); (10, "lexical"); (10, "hybrid")].
Proof. reflexivity. Qed.

(** C9: the report of a run has exactly one row per (strategy, k) pair, in
    the fixed order of ascending k and, within a k, of strategy insertion,
    whatever the searches return; each row holds the means of the recall
    and of the reciprocal rank over the records of its group, one record
    per query, taken in query order.  A run in which no call raises does
    produce a report. *)
Theorem report_rows (np_mean : list float -> float) {E : Type} (tbl : Hybrid.Table E)
    (queries : list string) (expected_ids : list (list string)) (embeddings : list E) :
  (forall rows,
     Hybrid.run_experiment np_mean tbl queries expected_ids embeddings = Ok rows ->
     map Hybrid.row_key rows = Hybrid.report_keys
     /\ NoDup (map Hybrid.row_key rows)
     /\ Sorted Z.le (map Hybrid.row_k rows)
     /\ forall r, r ∈ rows -> exists records,
          Hybrid.group_records tbl queries expected_ids embeddings
            (Hybrid.row_k r) (Hybrid.row_method r) = Ok records
          /\ length records = length queries
          /\ Hybrid.row_recall r = np_mean (map Hybrid.rec_recall records)
          /\ Hybrid.row_mrr r = np_mean (map Hybrid.rec_mrr records))
  /\ ((forall k, k ∈ Hybrid.k_values ->
         Hybrid.calls_succeed tbl queries expected_ids embeddings k) ->
      exists rows,
        Hybrid.run_experiment np_mean tbl queries expected_ids embeddings = Ok rows).
Proof.
  split.
  - intros rows Hrun.
    pose proof (run_experiment_inv np_mean tbl queries expected_ids embeddings rows Hrun)
      as Hcalls.
    destruct (run_experiment_returns np_mean tbl queries expected_ids embeddings Hcalls)
      as (rows' & Hrun' & Hkeys & Hmeans).
    rewrite Hrun in Hrun'. injection Hrun' as <-.
    split; [exact Hkeys|]. split; [|split; [|exact Hmeans]].
    + rewrite Hkeys. vm_compute. repeat (constructor; [set_solver|]). constructor.
    + replace (map Hybrid.row_k rows) with (map fst (map Hybrid.row_key rows))
        by (rewrite map_map; reflexivity).
      rewrite Hkeys. vm_compute. repeat constructor; discriminate.
  - intros Hcalls.
    destruct (run_experiment_returns np_mean tbl queries expected_ids embeddings Hcalls)
      as (rows & Hrun & _).
    by exists rows.
Qed.

Lemma steady_table_succeeds (k : Z) :
  Hybrid.calls_succeed Hybrid.steady_table ["q1"; "q2"] [["1"]; ["2"]] [(); ()] k.
Proof.
  intros [|[|idx]] query Hq; simplify_eq/=.
  - by exists ["1"], ().
  - by exists ["2"], ().
Qed.

Lemma report_rows_witness :
  exists rows,
    Hybrid.run_experiment Hybrid.mean_left Hybrid.steady_table
      ["q1"; "q2"] [["1"]; ["2"]] [(); ()] = Ok rows
    /\ map Hybrid.row_key rows = Hybrid.report_keys
    /\ forall r, r ∈ rows -> exists records,
         Hybrid.group_records Hybrid.steady_table ["q1"; "q2"] [["1"]; ["2"]] [(); ()]
           (Hybrid.row_k r) (Hybrid.row_method r) = Ok records
         /\ length records = 2%nat
         /\ Hybrid.row_recall r = Hybrid.mean_left (map Hybrid.rec_recall records)
         /\ Hybrid.row_mrr r = Hybrid.mean_left (map Hybrid.rec_mrr records).
Proof.
  destruct (report_rows Hybrid.mean_left Hybrid.steady_table
              ["q1"; "q2"] [["1"]; ["2"]] [(); ()]) as [Hreport Hruns].
  destruct Hruns as [rows Hrun]; [intros k _; apply steady_table_succeeds|].
  exists rows. split; [exact Hrun|].
  destruct (Hreport rows Hrun) as (Hkeys & _ & _ & Hmeans).
  split; [exact Hkeys | exact Hmeans].
Defined.

(** ** Failing calls *)

Lemma mapM_returns {A B : Type} (f : A -> result B) (l : list A) :
  (forall x, x ∈ l -> is_ok (f x) = true) ->
  exists ys, mapM f l = Ok ys /\ length ys = length l.
Proof.
  induction l as [|x l IH]; intros Hall; simpl; [by exists []|].
  destruct (proj1 (is_ok_true (f x))) as [y ->]; [apply Hall; by left|].
  destruct IH as (ys & -> & Hlen); [intros z Hz; apply Hall; by right|].
  simpl. exists (y :: ys). by rewrite <- Hlen.
Qed.

Lemma mapM_raises {A B : Type} (f : A -> result B) (l : list A) (x : A) :
  x ∈ l -> is_ok (f x) = false -> is_ok (mapM f l) = false.
Proof.
  induction l as [|z l IH]; intros Hx Hfx; [by apply elem_of_nil in Hx|].
  simpl. apply elem_of_cons in Hx as [->|Hx].
  - apply is_ok_false in Hfx as [e ->]. done.
  - destruct (f z); [|done]. simpl.
    specialize (IH Hx Hfx). by destruct (mapM f l).
Qed.

Lemma scoring_returns (df : list ToolCalls.QueryRow) :
  df <> [] ->
  exists rows,
    ToolCalls.calculate_precision_recall_for_queries df = Ok rows
    /\ length rows = length df.
Proof.
  intros Hdf. unfold ToolCalls.calculate_precision_recall_for_queries.
  destruct (Py.is_empty df) eqn:Hempty; [by destruct df|].
  destruct (mapM_returns (fun x => ToolCalls.calculate_precision
                                     (ToolCalls.actual x) (ToolCalls.expected x)) df)
    as (ps & -> & Hps); [intros; apply is_ok_true, precision_returns|].
  destruct (mapM_returns (fun x => ToolCalls.calculate_recall
                                     (ToolCalls.actual x) (ToolCalls.expected x)) df)
    as (rs & -> & Hrs); [intros; apply is_ok_true, recall_returns|].
  simpl. eexists. split; [done|].
  rewrite length_zip_with, length_zip. lia.
Qed.

(** C4, as stated, fails: the hybrid pipeline raising at k = 5 ends the
    whole experiment with that exception, although the k = 3 pass had
    finished, and one failing model call ends the tool-selection run; no
    report is produced in either case. *)
Lemma failing_call_leaves_no_report :
  Hybrid.run_experiment Hybrid.mean_left Hybrid.flaky_table
    ["q1"; "q2"] [["1"]; ["2"]] [(); ()] = Raise (AdapterError "timeout")
  /\ ToolCalls.run_tests ToolCalls.flaky_endpoint
       [("first", ["send_email"]); ("second", ["send_email"])]
     = Raise (AdapterError "connection reset").
Proof. split; vm_compute; reflexivity. Qed.

(** C4 (amended): an adapter call that raises makes the whole experiment
    raise, and a model call that raises makes the whole tool-selection run
    raise; no cell is scored as a miss.  When no call raises (and no
    expected list is empty) the experiment returns a report whose rows are
    exactly the configured (strategy, k) pairs, and the tool-selection run,
    given at least one test, returns one scored row per test. *)
Theorem failing_call_aborts_run (np_mean : list float -> float) {E : Type}
    (tbl : Hybrid.Table E) (queries : list string)
    (expected_ids : list (list string)) (embeddings : list E)
    (process_user_query : string -> result (ToolCalls.Response * float))
    (tests : list (string * list string)) :
  (forall idx query emb k,
      queries !! idx = Some query -> embeddings !! idx = Some emb ->
      k ∈ Hybrid.k_values ->
      is_ok (Hybrid.search_semantic tbl query emb k) = false
      \/ is_ok (Hybrid.search_lexical tbl query k) = false
      \/ is_ok (Hybrid.search_hybrid tbl query emb k) = false ->
      is_ok (Hybrid.run_experiment np_mean tbl queries expected_ids embeddings) = false)
  /\ ((forall k, k ∈ Hybrid.k_values ->
         Hybrid.calls_succeed tbl queries expected_ids embeddings k) ->
      exists rows,
        Hybrid.run_experiment np_mean tbl queries expected_ids embeddings = Ok rows
        /\ map Hybrid.row_key rows = Hybrid.report_keys)
  /\ (forall test_item,
        test_item ∈ tests -> is_ok (process_user_query (fst test_item)) = false ->
        is_ok (ToolCalls.run_tests process_user_query tests) = false)
  /\ (tests <> [] ->
      (forall test_item,
         test_item ∈ tests -> is_ok (process_user_query (fst test_item)) = true) ->
      exists rows,
        ToolCalls.run_tests process_user_query tests = Ok rows
        /\ length rows = length tests).
Proof.
  split; [|split; [|split]].
  - intros idx query emb k Hq Hemb Hk Hfail.
    destruct (Hybrid.run_experiment np_mean tbl queries expected_ids embeddings)
      as [rows|e] eqn:Hrun; [exfalso | done].
    pose proof (run_experiment_inv np_mean tbl queries expected_ids embeddings rows Hrun k Hk)
      as Hcalls.
    destruct (Hcalls idx query Hq) as (eid & emb' & _ & _ & Hemb' & Hs & Hl & Hh).
    rewrite Hemb in Hemb'. injection Hemb' as <-.
    destruct Hfail as [Hf|[Hf|Hf]]; congruence.
  - intros Hcalls.
    destruct (run_experiment_returns np_mean tbl queries expected_ids embeddings Hcalls)
      as (rows & Hrun & Hkeys & _).
    by exists rows.
  - intros test_item Hin Hfail. unfold ToolCalls.run_tests, ToolCalls.gather.
    assert (Hg : is_ok (mapM (fun c => c)
                          (map (fun t => process_user_query (fst t)) tests)) = false).
    { apply (mapM_raises _ _ (process_user_query (fst test_item))); [|done].
      apply list_elem_of_fmap. by exists test_item. }
    apply is_ok_false in Hg as [e ->]. done.
  - intros Htests Hall. unfold ToolCalls.run_tests, ToolCalls.gather.
    destruct (mapM_returns (fun c => c)
                (map (fun t => process_user_query (fst t)) tests))
      as (results & -> & Hlen).
    { intros c (t & -> & Ht)%list_elem_of_fmap. by apply Hall. }
    simpl. rewrite length_map in Hlen.
    match goal with
    | |- context [ToolCalls.calculate_precision_recall_for_queries ?df] =>
        destruct (scoring_returns df) as (rows & -> & Hrows)
    end.
    { destruct tests as [|t tests]; [done|]. by destruct results. }
    exists rows. split; [done|].
    rewrite Hrows, length_zip_with. lia.
Qed.

Lemma failing_call_aborts_run_witness :
  is_ok (Hybrid.run_experiment Hybrid.mean_left Hybrid.flaky_table
           ["q1"; "q2"] [["1"]; ["2"]] [(); ()]) = false
  /\ is_ok (ToolCalls.run_tests ToolCalls.flaky_endpoint
              [("first", ["send_email"]); ("second", ["send_email"])]) = false.
Proof.
  pose proof (failing_call_aborts_run Hybrid.mean_left Hybrid.flaky_table
                ["q1"; "q2"] [["1"]; ["2"]] [(); ()] ToolCalls.flaky_endpoint
                [("first", ["send_email"]); ("second", ["send_email"])])
    as (Hsearch & _ & Hcall & _).
  split.
  - apply (Hsearch 0%nat "q1" () 5); [reflexivity | reflexivity | set_solver |].
    right; right; reflexivity.
  - apply (Hcall ("second", ["send_email"])); [set_solver | reflexivity].
Defined.

(** ** Per-tool breakdown *)

Lemma collect_tools_fold (l : list (list string)) :
  forall (acc : gset string) (t : string),
    t ∈ fold_left (fun all_tools tools => all_tools ∪ list_to_set tools) l acc
    <-> t ∈ acc \/ exists tools, tools ∈ l /\ t ∈ tools.
Proof.
  induction l as [|tools l IH]; intros acc t; simpl.
  - split; [by left | intros [H|(tools & H & _)]; [done | by apply elem_of_nil in H]].
  - rewrite IH, elem_of_union, elem_of_list_to_set. split.
    + intros [[H|H]|(tools' & H & Ht)]; [by left | right | right].
      * exists tools. split; [by left | done].
      * exists tools'. split; [by right | done].
    + intros [H|(tools' & [->|H]%elem_of_cons & Ht)]; [by left; left | by left; right |].
      right. by exists tools'.
Qed.

Lemma collect_tools_spec (df : list ToolCalls.QueryRow) (t : string) :
  t ∈ ToolCalls.collect_tools df
  <-> exists r, r ∈ df /\ (t ∈ ToolCalls.expected r \/ t ∈ ToolCalls.actual r).
Proof.
  unfold ToolCalls.collect_tools. rewrite collect_tools_fold. split.
  - intros [H|(tools & (r & -> & Hr)%list_elem_of_fmap & Ht)]; [set_solver|].
    exists r. split; [done|]. by apply elem_of_app in Ht.
  - intros (r & Hr & Ht). right. exists (ToolCalls.expected r ++ ToolCalls.actual r).
    split; [apply list_elem_of_fmap; by exists r | by apply elem_of_app].
Qed.

Lemma counts_are_ext (tools : gset string) (st : ToolCalls.Counters) (fc fe fc' fe' : string -> Z) :
  (forall t, fc t = fc' t) -> (forall t, fe t = fe' t) ->
  ToolCalls.counts_are tools st fc fe -> ToolCalls.counts_are tools st fc' fe'.
Proof.
  intros Hc He H t. destruct (H t) as [H1 H2]. by rewrite H1, H2, Hc, He.
Qed.

Lemma counts_are_zero (tools : gset string) :
  ToolCalls.counts_are tools (gset_to_gmap 0 tools, gset_to_gmap 0 tools)
    (fun _ => 0) (fun _ => 0).
Proof.
  intros t. simpl. destruct (decide (t ∈ tools)) as [Hin|Hout].
  - split; by apply lookup_gset_to_gmap_Some.
  - split; by apply lookup_gset_to_gmap_None.
Qed.

Lemma increment_spec (counter : gmap string Z) (x : string) (n : Z) :
  counter !! x = Some n ->
  ToolCalls.increment counter x = Ok (<[x := n + 1]> counter).
Proof. intros H. unfold ToolCalls.increment, ToolCalls.getitem. by rewrite H. Qed.

Lemma count_tool_spec (tools actual_set : gset string) (st : ToolCalls.Counters)
    (fc fe : string -> Z) (x : string) :
  x ∈ tools ->
  ToolCalls.counts_are tools st fc fe ->
  exists st',
    ToolCalls.count_tool actual_set st x = Ok st'
    /\ ToolCalls.counts_are tools st'
         (fun t => fc t + ToolCalls.indicator (t = x /\ x ∈ actual_set))
         (fun t => fe t + ToolCalls.indicator (t = x)).
Proof.
  intros Hx Hst. unfold ToolCalls.count_tool.
  destruct (Hst x) as [Hc He]. rewrite decide_True in Hc, He by done.
  rewrite (increment_spec _ _ _ He). simpl.
  destruct (decide (x ∈ actual_set)) as [Ha|Ha].
  - rewrite (increment_spec _ _ _ Hc). simpl. eexists. split; [done|].
    intros t. destruct (Hst t) as [Hct Het]. simpl. unfold ToolCalls.indicator.
    destruct (decide (t = x)) as [->|Hne].
    + rewrite !lookup_insert_eq, !decide_True, !bool_decide_eq_true_2 by done. done.
    + rewrite !lookup_insert_ne, Hct, Het by done.
      rewrite !bool_decide_eq_false_2 by tauto.
      rewrite !Z.add_0_r. done.
  - eexists. split; [done|].
    intros t. destruct (Hst t) as [Hct Het]. simpl. unfold ToolCalls.indicator.
    rewrite (bool_decide_eq_false_2 (t = x /\ x ∈ actual_set)) by tauto.
    rewrite Z.add_0_r. split; [done|].
    destruct (decide (t = x)) as [->|Hne].
    + rewrite lookup_insert_eq, decide_True, bool_decide_eq_true_2 by done. done.
    + rewrite lookup_insert_ne, Het by done.
      rewrite bool_decide_eq_false_2 by done. by rewrite Z.add_0_r.
Qed.

Lemma indicator_cons (x : string) (l : list string) (t : string) :
  x ∉ l ->
  ToolCalls.indicator (t = x) + ToolCalls.indicator (t ∈ l) =
  ToolCalls.indicator (t ∈ x :: l).
Proof.
  intros Hx. unfold ToolCalls.indicator.
  repeat case_bool_decide; rewrite elem_of_cons in *; subst; try lia; tauto.
Qed.

Lemma indicator_cons_both (x : string) (l : list string) (actual_set : gset string)
    (t : string) :
  x ∉ l ->
  ToolCalls.indicator (t = x /\ x ∈ actual_set)
  + ToolCalls.indicator (t ∈ l /\ t ∈ actual_set) =
  ToolCalls.indicator (t ∈ x :: l /\ t ∈ actual_set).
Proof.
  intros Hx. unfold ToolCalls.indicator.
  repeat case_bool_decide; rewrite elem_of_cons in *; try lia;
    exfalso; intuition (subst; tauto).
Qed.

Lemma count_tools_spec (tools actual_set : gset string) (l : list string) :
  forall (st : ToolCalls.Counters) (fc fe : string -> Z),
    NoDup l ->
    (forall t, t ∈ l -> t ∈ tools) ->
    ToolCalls.counts_are tools st fc fe ->
    exists st',
      ToolCalls.foldM (ToolCalls.count_tool actual_set) l st = Ok st'
      /\ ToolCalls.counts_are tools st'
           (fun t => fc t + ToolCalls.indicator (t ∈ l /\ t ∈ actual_set))
           (fun t => fe t + ToolCalls.indicator (t ∈ l)).
Proof.
  induction l as [|x l IH]; intros st fc fe Hnd Hsub Hst; simpl.
  - exists st. split; [done|]. revert Hst. apply counts_are_ext; intros t;
      unfold ToolCalls.indicator; rewrite bool_decide_eq_false_2; set_solver || lia.
  - apply NoDup_cons in Hnd as [Hx Hnd].
    destruct (count_tool_spec tools actual_set st fc fe x) as (st1 & -> & Hst1);
      [apply Hsub; by left | done |].
    simpl.
    edestruct (IH st1) as (st' & -> & Hst');
      [exact Hnd | intros t Ht; apply Hsub; by right | exact Hst1 |].
    exists st'. split; [done|]. revert Hst'.
    apply counts_are_ext; intros t.
    + rewrite <- (indicator_cons_both x l actual_set t Hx). lia.
    + rewrite <- (indicator_cons x l t Hx). lia.
Qed.

Lemma indicator_expected (t : string) (l : list string) :
  ToolCalls.indicator (t ∈ elements (list_to_set l : gset string)) =
  if Py.contains t l then 1 else 0.
Proof.
  unfold ToolCalls.indicator. destruct (Py.contains t l) eqn:Hc.
  - apply contains_spec in Hc. rewrite bool_decide_eq_true_2; [done | set_solver].
  - apply contains_false in Hc. rewrite bool_decide_eq_false_2; [done | set_solver].
Qed.

Lemma indicator_both (t : string) (l l' : list string) :
  ToolCalls.indicator (t ∈ elements (list_to_set l : gset string)
                       /\ t ∈ (list_to_set l' : gset string)) =
  if Py.contains t l && Py.contains t l' then 1 else 0.
Proof.
  unfold ToolCalls.indicator.
  destruct (Py.contains t l) eqn:Hl;
    [apply contains_spec in Hl | apply contains_false in Hl];
    (destruct (Py.contains t l') eqn:Hl';
     [apply contains_spec in Hl' | apply contains_false in Hl']).
  - rewrite bool_decide_eq_true_2; [done | set_solver].
  - rewrite bool_decide_eq_false_2; [done | set_solver].
  - rewrite bool_decide_eq_false_2; [done | set_solver].
  - rewrite bool_decide_eq_false_2; [done | set_solver].
Qed.

Lemma count_row_spec (tools : gset string) (st : ToolCalls.Counters)
    (fc fe : string -> Z) (r : ToolCalls.QueryRow) :
  (forall t, t ∈ ToolCalls.expected r -> t ∈ tools) ->
  ToolCalls.counts_are tools st fc fe ->
  exists st',
    ToolCalls.count_row st r = Ok st'
    /\ ToolCalls.counts_are tools st'
         (fun t => fc t + ToolCalls.correct_count t [r])
         (fun t => fe t + ToolCalls.expected_count t [r]).
Proof.
  intros Hsub Hst. unfold ToolCalls.count_row.
  destruct (count_tools_spec tools (list_to_set (ToolCalls.actual r))
              (elements (list_to_set (ToolCalls.expected r) : gset string)) st fc fe)
    as (st' & -> & Hst'); [apply NoDup_elements | | done |].
  { intros t Ht. apply Hsub. set_solver. }
  exists st'. split; [done|]. revert Hst'.
  apply counts_are_ext; intros t;
    unfold ToolCalls.correct_count, ToolCalls.expected_count; simpl.
  - rewrite indicator_both. by destruct (_ && _).
  - rewrite indicator_expected. by destruct (Py.contains _ _).
Qed.

Lemma expected_count_cons (t : string) (r : ToolCalls.QueryRow) (df : list ToolCalls.QueryRow) :
  ToolCalls.expected_count t (r :: df) =
  ToolCalls.expected_count t [r] + ToolCalls.expected_count t df.
Proof.
  unfold ToolCalls.expected_count. simpl.
  destruct (Py.contains t (ToolCalls.expected r)); simpl; lia.
Qed.

Lemma correct_count_cons (t : string) (r : ToolCalls.QueryRow) (df : list ToolCalls.QueryRow) :
  ToolCalls.correct_count t (r :: df) =
  ToolCalls.correct_count t [r] + ToolCalls.correct_count t df.
Proof.
  unfold ToolCalls.correct_count. simpl.
  destruct (Py.contains t (ToolCalls.expected r) && Py.contains t (ToolCalls.actual r));
    simpl; lia.
Qed.

Lemma count_rows_spec (tools : gset string) (df : list ToolCalls.QueryRow) :
  forall (st : ToolCalls.Counters) (fc fe : string -> Z),
    (forall r t, r ∈ df -> t ∈ ToolCalls.expected r -> t ∈ tools) ->
    ToolCalls.counts_are tools st fc fe ->
    exists st',
      ToolCalls.foldM ToolCalls.count_row df st = Ok st'
      /\ ToolCalls.counts_are tools st'
           (fun t => fc t + ToolCalls.correct_count t df)
           (fun t => fe t + ToolCalls.expected_count t df).
Proof.
  induction df as [|r df IH]; intros st fc fe Hsub Hst; simpl.
  - exists st. split; [done|]. revert Hst.
    apply counts_are_ext; intros t; unfold ToolCalls.correct_count, ToolCalls.expected_count;
      simpl; lia.
  - destruct (count_row_spec tools st fc fe r) as (st1 & -> & Hst1);
      [intros t; apply Hsub; by left | done |].
    simpl.
    edestruct (IH st1) as (st' & -> & Hst');
      [intros r' t Hr'; apply Hsub; by right | exact Hst1 |].
    exists st'. split; [done|]. revert Hst'.
    apply counts_are_ext; intros t;
      [rewrite (correct_count_cons t r df) | rewrite (expected_count_cons t r df)]; lia.
Qed.

Lemma tool_row_spec (tools : gset string) (st : ToolCalls.Counters)
    (df : list ToolCalls.QueryRow) (t : string) :
  ToolCalls.counts_are tools st
    (fun t => ToolCalls.correct_count t df) (fun t => ToolCalls.expected_count t df) ->
  t ∈ tools ->
  ToolCalls.tool_row st t = Ok (ToolCalls.tool_summary df t).
Proof.
  intros Hst Ht. destruct (Hst t) as [Hc He]. rewrite decide_True in Hc, He by done.
  unfold ToolCalls.tool_row, ToolCalls.getitem, ToolCalls.tool_summary.
  rewrite Hc, He. simpl.
  destruct (0 <? ToolCalls.expected_count t df) eqn:Hpos; simpl; [|done].
  apply Z.ltb_lt in Hpos. rewrite int_truediv_nonzero by lia. done.
Qed.

Lemma mapM_ext {A B : Type} (f : A -> result B) (g : A -> B) (l : list A) :
  (forall x, x ∈ l -> f x = Ok (g x)) -> mapM f l = Ok (map g l).
Proof.
  induction l as [|x l IH]; intros Hall; simpl; [done|].
  rewrite (Hall x) by (by left). simpl.
  rewrite IH by (intros z Hz; apply Hall; by right). done.
Qed.

Lemma insert_desc_perm (r : ToolCalls.ToolRow) (l : list ToolCalls.ToolRow) :
  ToolCalls.insert_desc r l ≡ₚ r :: l.
Proof.
  induction l as [|r' l IH]; simpl; [done|].
  destruct (PrimFloat.ltb _ _); [|done].
  rewrite IH. apply Permutation_swap.
Qed.

Lemma sort_values_desc_perm (l : list ToolCalls.ToolRow) :
  ToolCalls.sort_values_desc l ≡ₚ l.
Proof.
  induction l as [|r l IH]; simpl; [done|].
  by rewrite insert_desc_perm, IH.
Qed.

(** The breakdown, in closed form: the rows of the collected tools, sorted
    by recall and rounded, or [KeyError] when no tool was collected. *)
Lemma per_tool_recall_unfold (df : list ToolCalls.QueryRow) :
  ToolCalls.calculate_per_tool_recall df =
  if Py.is_empty (elements (ToolCalls.collect_tools df)) then Raise KeyError
  else Ok (map ToolCalls.round_row
             (ToolCalls.sort_values_desc
                (map (ToolCalls.tool_summary df) (elements (ToolCalls.collect_tools df))))).
Proof.
  unfold ToolCalls.calculate_per_tool_recall.
  set (tools := ToolCalls.collect_tools df).
  assert (Hsub : forall r t, r ∈ df -> t ∈ ToolCalls.expected r -> t ∈ tools).
  { intros r t Hr Ht. apply collect_tools_spec. exists r. auto. }
  destruct (count_rows_spec tools df _ _ _ Hsub (counts_are_zero tools))
    as (st & -> & Hst).
  simpl.
  assert (Hst' : ToolCalls.counts_are tools st
                   (fun t => ToolCalls.correct_count t df)
                   (fun t => ToolCalls.expected_count t df)).
  { revert Hst. apply counts_are_ext; intros t; lia. }
  rewrite (mapM_ext _ (ToolCalls.tool_summary df)).
  - simpl. by destruct (elements tools).
  - intros t Ht. apply (tool_row_spec tools); [done|]. by apply elem_of_elements.
Qed.

Lemma per_tool_recall_rows (df : list ToolCalls.QueryRow) (t : string) :
  (exists r, r ∈ df /\ (t ∈ ToolCalls.expected r \/ t ∈ ToolCalls.actual r)) ->
  exists rows,
    ToolCalls.calculate_per_tool_recall df = Ok rows
    /\ ToolCalls.round_row (ToolCalls.tool_summary df t) ∈ rows
    /\ forall row, row ∈ rows -> ToolCalls.tool row = t ->
         row = ToolCalls.round_row (ToolCalls.tool_summary df t).
Proof.
  intros Ht%collect_tools_spec. rewrite per_tool_recall_unfold.
  apply elem_of_elements in Ht.
  destruct (elements (ToolCalls.collect_tools df)) as [|t0 ts] eqn:Hts;
    [by apply elem_of_nil in Ht|].
  cbn [Py.is_empty]. eexists. split; [done|]. split.
  - apply list_elem_of_fmap. eexists. split; [done|].
    rewrite sort_values_desc_perm. apply list_elem_of_fmap. by exists t.
  - intros row (x & -> & Hx)%list_elem_of_fmap Htool.
    rewrite sort_values_desc_perm in Hx.
    apply list_elem_of_fmap in Hx as (t' & -> & _).
    simpl in Htool. by subst t'.
Qed.

Lemma round2_zero : Np.round2 0 = 0%float.
Proof. reflexivity. Qed.

Lemma not_expected_counts (t : string) (r : ToolCalls.QueryRow) (df : list ToolCalls.QueryRow) :
  t ∉ ToolCalls.expected r ->
  ToolCalls.expected_count t (r :: df) = ToolCalls.expected_count t df
  /\ ToolCalls.correct_count t (r :: df) = ToolCalls.correct_count t df.
Proof.
  intros Hout%contains_false.
  unfold ToolCalls.expected_count, ToolCalls.correct_count. simpl. by rewrite Hout.
Qed.

Lemma never_expected_counts (t : string) (df : list ToolCalls.QueryRow) :
  (forall r, r ∈ df -> t ∉ ToolCalls.expected r) ->
  ToolCalls.expected_count t df = 0 /\ ToolCalls.correct_count t df = 0.
Proof.
  induction df as [|r df IH]; intros Hout; [done|].
  destruct (not_expected_counts t r df) as [-> ->]; [apply Hout; by left|].
  apply IH. intros r' Hr'. apply Hout. by right.
Qed.

(** C8, as stated, fails on the notebook's own frame: [create_reminder] is
    expected in three queries and called in two, and its row reports 0.67,
    which is not the quotient 2/3. *)
Lemma notebook_breakdown_is_rounded :
  ToolCalls.calculate_per_tool_recall ToolCalls.notebook_df =
    Ok [ {| ToolCalls.tool := "get_calendar_events"; ToolCalls.correct_calls := 3;
            ToolCalls.expected_calls := 3; ToolCalls.tool_recall := 1 |};
         {| ToolCalls.tool := "create_reminder"; ToolCalls.correct_calls := 2;
            ToolCalls.expected_calls := 3; ToolCalls.tool_recall := 0.67 |};
         {| ToolCalls.tool := "send_email"; ToolCalls.correct_calls := 1;
            ToolCalls.expected_calls := 3; ToolCalls.tool_recall := 0.33 |} ]
  /\ Py.int_truediv 2 3 <> Ok 0.67%float.
Proof. split; [vm_compute; reflexivity | vm_compute; float_discr]. Qed.

(** C8 (amended): the row of a tool counts in [expected_calls] the queries
    whose expected list holds the tool and in [correct_calls] those whose
    expected and actual lists both hold it; a query that does not expect the
    tool changes neither count, whether it called the tool or not; the
    reported recall is the quotient of the two counts rounded to two
    decimals, and 0 when [expected_calls] is 0. *)
Theorem per_tool_counts (df : list ToolCalls.QueryRow) (t : string) :
  (exists r, r ∈ df /\ (t ∈ ToolCalls.expected r \/ t ∈ ToolCalls.actual r)) ->
  exists rows row,
    ToolCalls.calculate_per_tool_recall df = Ok rows
    /\ row ∈ rows /\ ToolCalls.tool row = t
    /\ (forall row', row' ∈ rows -> ToolCalls.tool row' = t -> row' = row)
    /\ ToolCalls.expected_calls row = ToolCalls.expected_count t df
    /\ ToolCalls.correct_calls row = ToolCalls.correct_count t df
    /\ ToolCalls.tool_recall row =
         (if 0 <? ToolCalls.expected_calls row
          then Np.round2 (Py.float_of_int (ToolCalls.correct_calls row)
                          / Py.float_of_int (ToolCalls.expected_calls row))
          else 0%float)
    /\ forall r0, t ∉ ToolCalls.expected r0 ->
         exists rows' row',
           ToolCalls.calculate_per_tool_recall (r0 :: df) = Ok rows'
           /\ row' ∈ rows' /\ ToolCalls.tool row' = t
           /\ ToolCalls.expected_calls row' = ToolCalls.expected_calls row
           /\ ToolCalls.correct_calls row' = ToolCalls.correct_calls row.
Proof.
  intros Happears.
  destruct (per_tool_recall_rows df t Happears) as (rows & Hrows & Hin & Huniq).
  exists rows, (ToolCalls.round_row (ToolCalls.tool_summary df t)).
  repeat (split; [done|]). split.
  - simpl. destruct (0 <? ToolCalls.expected_count t df); [done | apply round2_zero].
  - intros r0 Hout.
    destruct (per_tool_recall_rows (r0 :: df) t) as (rows' & Hrows' & Hin' & _).
    { destruct Happears as (r & Hr & Ht). exists r. split; [by right | done]. }
    exists rows', (ToolCalls.round_row (ToolCalls.tool_summary (r0 :: df) t)).
    repeat (split; [done|]). simpl.
    by destruct (not_expected_counts t r0 df Hout) as [-> ->].
Qed.

Lemma per_tool_counts_witness :
  exists rows row,
    ToolCalls.calculate_per_tool_recall ToolCalls.notebook_df = Ok rows
    /\ row ∈ rows /\ ToolCalls.tool row = "send_email"
    /\ ToolCalls.expected_calls row = 3
    /\ ToolCalls.correct_calls row = 1
    /\ ToolCalls.tool_recall row = 0.33%float.
Proof.
  destruct (per_tool_counts ToolCalls.notebook_df "send_email")
    as (rows & row & Hrows & Hin & Htool & _ & He & Hc & Hr & _).
  { eexists. split; [apply list_elem_of_here | left; set_solver]. }
  exists rows, row.
  split; [exact Hrows|]. split; [exact Hin|]. split; [exact Htool|].
  split; [exact He|]. split; [exact Hc|].
  rewrite Hr, Hc, He. reflexivity.
Defined.

(** C10: every tool that occurs in an expected or an actual list gets a row;
    a tool that is never expected gets [correct_calls] 0, [expected_calls] 0
    and recall 0; and the breakdown never raises a division by zero. *)
Theorem per_tool_rows_cover (df : list ToolCalls.QueryRow) :
  ToolCalls.calculate_per_tool_recall df <> Raise ZeroDivisionError
  /\ forall t,
       (exists r, r ∈ df /\ (t ∈ ToolCalls.expected r \/ t ∈ ToolCalls.actual r)) ->
       exists rows row,
         ToolCalls.calculate_per_tool_recall df = Ok rows
         /\ row ∈ rows /\ ToolCalls.tool row = t
         /\ ((forall r, r ∈ df -> t ∉ ToolCalls.expected r) ->
             ToolCalls.correct_calls row = 0
             /\ ToolCalls.expected_calls row = 0
             /\ ToolCalls.tool_recall row = 0%float).
Proof.
  split.
  - rewrite per_tool_recall_unfold. by destruct (Py.is_empty _).
  - intros t Happears.
    destruct (per_tool_recall_rows df t Happears) as (rows & Hrows & Hin & _).
    exists rows, (ToolCalls.round_row (ToolCalls.tool_summary df t)).
    repeat (split; [done|]).
    intros Hnever. simpl.
    by destruct (never_expected_counts t df Hnever) as [-> ->].
Qed.

Lemma per_tool_rows_cover_witness :
  exists rows row,
    ToolCalls.calculate_per_tool_recall
      [ {| ToolCalls.query := "q"; ToolCalls.expected := ["create_reminder"];
           ToolCalls.actual := ["send_email"]; ToolCalls.time := 1 |} ] = Ok rows
    /\ row ∈ rows /\ ToolCalls.tool row = "send_email"
    /\ ToolCalls.correct_calls row = 0
    /\ ToolCalls.expected_calls row = 0
    /\ ToolCalls.tool_recall row = 0%float.
Proof.
  destruct (proj2 (per_tool_rows_cover
                     [ {| ToolCalls.query := "q"; ToolCalls.expected := ["create_reminder"];
                          ToolCalls.actual := ["send_email"]; ToolCalls.time := 1 |} ])
                  "send_email")
    as (rows & row & Hrows & Hin & Htool & Hzero).
  { eexists. split; [apply list_elem_of_here | right; set_solver]. }
  exists rows, row.
  split; [exact Hrows|]. split; [exact Hin|]. split; [exact Htool|].
  apply Hzero. intros r ->%list_elem_of_singleton. simpl.
  intros H%list_elem_of_singleton. discriminate.
Defined.

(** * Further properties of the notebooks' code *)

(** ** Query sanitization *)

Lemma sanitize_query_chars (query : string) (c : ascii) :
  c ∈ list_ascii_of_string (Hybrid.sanitize_query query) ->
  c ∈ list_ascii_of_string query
  /\ nat_of_ascii c <> 39%nat /\ nat_of_ascii c <> 34%nat /\ nat_of_ascii c <> 92%nat.
Proof.
  induction query as [|a rest IH]; simpl; [by intros ?%elem_of_nil|].
  destruct (nat_of_ascii a =? 39)%nat eqn:H39; simpl.
  { intros [? ?]%IH. split; [by right | done]. }
  destruct (nat_of_ascii a =? 34)%nat eqn:H34; simpl.
  { intros [? ?]%IH. split; [by right | done]. }
  destruct (nat_of_ascii a =? 92)%nat eqn:H92; simpl.
  { intros [? ?]%IH. split; [by right | done]. }
  intros [->|Hin]%elem_of_cons.
  - split; [by left|]. by apply Nat.eqb_neq in H39, H34, H92.
  - destruct (IH Hin). split; [by right | done].
Qed.

Lemma sanitize_query_fixed (query : string) :
  (forall c, c ∈ list_ascii_of_string query ->
     nat_of_ascii c <> 39%nat /\ nat_of_ascii c <> 34%nat /\ nat_of_ascii c <> 92%nat) ->
  Hybrid.sanitize_query query = query.
Proof.
  induction query as [|a rest IH]; simpl; intros Hclean; [done|].
  destruct (Hclean a) as (H39 & H34 & H92); [by left|].
  apply Nat.eqb_neq in H39, H34, H92. rewrite H39, H34, H92. simpl.
  f_equal. apply IH. intros c Hc. apply Hclean. by right.
Qed.

Lemma sanitize_query_idempotent (query : string) :
  Hybrid.sanitize_query (Hybrid.sanitize_query query) = Hybrid.sanitize_query query.
Proof.
  apply sanitize_query_fixed. intros c Hc. by apply sanitize_query_chars in Hc as [_ ?].
Qed.

Lemma sanitize_query_app (q1 q2 : string) :
  Hybrid.sanitize_query (String.append q1 q2) =
  String.append (Hybrid.sanitize_query q1) (Hybrid.sanitize_query q2).
Proof.
  induction q1 as [|a rest IH]; simpl; [done|].
  rewrite IH. by destruct (_ || _).
Qed.

(** X1: the sanitized query holds no single quote, double quote or
    backslash, and only characters of the query; a query without these
    three characters is returned unchanged; sanitizing twice is sanitizing
    once; and sanitizing distributes over concatenation. *)
Theorem sanitize_query_removes_only_quotes (query : string) :
  (forall c, c ∈ list_ascii_of_string (Hybrid.sanitize_query query) ->
     c ∈ list_ascii_of_string query
     /\ nat_of_ascii c <> 39%nat /\ nat_of_ascii c <> 34%nat /\ nat_of_ascii c <> 92%nat)
  /\ ((forall c, c ∈ list_ascii_of_string query ->
         nat_of_ascii c <> 39%nat /\ nat_of_ascii c <> 34%nat /\ nat_of_ascii c <> 92%nat) ->
      Hybrid.sanitize_query query = query)
  /\ Hybrid.sanitize_query (Hybrid.sanitize_query query) = Hybrid.sanitize_query query
  /\ forall query', Hybrid.sanitize_query (String.append query query') =
       String.append (Hybrid.sanitize_query query) (Hybrid.sanitize_query query').
Proof.
  split; [apply sanitize_query_chars|]. split; [apply sanitize_query_fixed|].
  split; [apply sanitize_query_idempotent | apply sanitize_query_app].
Qed.

Lemma sanitize_query_removes_only_quotes_witness :
  Hybrid.sanitize_query "red dress" = "red dress".
Proof.
  apply (proj1 (proj2 (sanitize_query_removes_only_quotes "red dress"))).
  intros c Hc. simpl in Hc.
  repeat (apply elem_of_cons in Hc as [->|Hc]; [by vm_compute|]).
  by apply elem_of_nil in Hc.
Defined.

(** ** Per-query precision and recall *)

Lemma filter_length_perm {A : Type} (p q : A -> bool) (l l' : list A) :
  l ≡ₚ l' -> (forall x, p x = q x) ->
  length (List.filter p l) = length (List.filter q l').
Proof.
  intros Hperm Hpq. rewrite (List.filter_ext p q Hpq). clear Hpq.
  induction Hperm as [|x l l' _ IH|x y l|l l' l'' _ IH1 _ IH2]; simpl.
  - done.
  - destruct (q x); simpl; by rewrite IH.
  - by destruct (q x), (q y).
  - by rewrite IH1.
Qed.

Lemma contains_ext (ys ys' : list string) :
  (forall t, t ∈ ys <-> t ∈ ys') -> forall t, Py.contains t ys = Py.contains t ys'.
Proof.
  intros Hsame t. destruct (Py.contains t ys') eqn:Hc.
  - apply contains_spec. apply Hsame. by apply contains_spec.
  - apply contains_false. rewrite Hsame. by apply contains_false.
Qed.

Lemma count_hits_perm (xs xs' ys ys' : list string) :
  xs ≡ₚ xs' -> (forall t, t ∈ ys <-> t ∈ ys') ->
  ToolCalls.count_hits xs ys = ToolCalls.count_hits xs' ys'.
Proof.
  intros Hperm Hsame. rewrite !count_hits_filter. f_equal.
  apply filter_length_perm; [done|]. by apply contains_ext.
Qed.

Lemma is_empty_perm {A : Type} (l l' : list A) :
  l ≡ₚ l' -> Py.is_empty l = Py.is_empty l'.
Proof.
  intros Hperm. destruct l, l'; try done.
  - by apply Permutation_nil_cons in Hperm.
  - symmetry in Hperm. by apply Permutation_nil_cons in Hperm.
Qed.

(** X2: when both lists are non-empty, recall is precision with the roles
    of the two lists exchanged. *)
Theorem recall_is_swapped_precision (model_tool_call expected_tool_call : list string) :
  model_tool_call <> [] -> expected_tool_call <> [] ->
  ToolCalls.calculate_recall model_tool_call expected_tool_call =
  ToolCalls.calculate_precision expected_tool_call model_tool_call.
Proof.
  intros Hm He. unfold ToolCalls.calculate_recall, ToolCalls.calculate_precision.
  by destruct model_tool_call, expected_tool_call.
Qed.

Lemma recall_is_swapped_precision_witness :
  ToolCalls.calculate_recall ["a"; "b"; "c"] ["b"; "d"] =
  ToolCalls.calculate_precision ["b"; "d"] ["a"; "b"; "c"].
Proof. apply recall_is_swapped_precision; discriminate. Defined.

(** X3: precision and recall do not depend on the order in which the model
    made its calls nor on the order in which the expected tools are
    listed. *)
Theorem precision_recall_order_independent
    (model model' expected expected' : list string) :
  model ≡ₚ model' -> expected ≡ₚ expected' ->
  ToolCalls.calculate_precision model expected = ToolCalls.calculate_precision model' expected'
  /\ ToolCalls.calculate_recall model expected = ToolCalls.calculate_recall model' expected'.
Proof.
  intros Hm He.
  assert (Hme : forall t, t ∈ model <-> t ∈ model') by (intros t; by rewrite Hm).
  assert (Hee : forall t, t ∈ expected <-> t ∈ expected') by (intros t; by rewrite He).
  unfold ToolCalls.calculate_precision, ToolCalls.calculate_recall, Py.len.
  rewrite (is_empty_perm _ _ Hm), (is_empty_perm _ _ He).
  rewrite (count_hits_perm model model' expected expected' Hm Hee).
  rewrite (count_hits_perm expected expected' model model' He Hme).
  by rewrite (Permutation_length Hm), (Permutation_length He).
Qed.

Lemma precision_recall_order_independent_witness :
  ToolCalls.calculate_precision ["a"; "b"; "c"] ["b"; "d"]
  = ToolCalls.calculate_precision ["b"; "c"; "a"] ["d"; "b"]
  /\ ToolCalls.calculate_recall ["a"; "b"; "c"] ["b"; "d"]
     = ToolCalls.calculate_recall ["b"; "c"; "a"] ["d"; "b"].
Proof.
  apply precision_recall_order_independent.
  - apply (Permutation_cons_append ["b"; "c"] "a").
  - apply perm_swap.
Defined.

(** ** The two recall functions *)

Lemma hybrid_recall_value (retrieved expected : list string) :
  expected <> [] ->
  Hybrid.recall retrieved expected =
  Ok (Py.float_of_int
        (Z.of_nat (size ((list_to_set retrieved : gset string) ∩ list_to_set expected)))
      / Py.float_of_int (Py.len expected))%float.
Proof.
  intros Hne. unfold Hybrid.recall. apply float_div_int_nonzero.
  apply len_pos in Hne. lia.
Qed.

(** X4: on non-empty lists, and when no expected tool is listed twice,
    [calculate_recall] of the tool-selection notebook is the [recall] of the
    hybrid-vs-vector notebook rounded to two decimals. *)
Theorem recall_functions_agree (retrieved expected : list string) :
  retrieved <> [] -> expected <> [] -> NoDup expected ->
  exists x,
    Hybrid.recall retrieved expected = Ok x
    /\ ToolCalls.calculate_recall retrieved expected = Ok (Py.round2 x).
Proof.
  intros Hr He Hnd. eexists. split; [by apply hybrid_recall_value|].
  unfold ToolCalls.calculate_recall.
  destruct expected as [|y ys]; [done|]. destruct retrieved as [|x xs]; [done|].
  cbn [Py.is_empty].
  rewrite int_truediv_nonzero by (unfold Py.len; simpl; lia).
  rewrite count_hits_filter, (filter_size_inter _ _ Hnd).
  by rewrite (comm_L (∩) (list_to_set (y :: ys) : gset string)).
Qed.

Lemma recall_functions_agree_witness :
  exists x,
    Hybrid.recall ["a"; "b"; "c"] ["b"; "d"; "e"] = Ok x
    /\ ToolCalls.calculate_recall ["a"; "b"; "c"] ["b"; "d"; "e"] = Ok (Py.round2 x).
Proof.
  apply recall_functions_agree; [discriminate | discriminate |].
  apply NoDup_cons. split; [|apply NoDup_cons; split; [|apply NoDup_singleton]].
  - intros [H|[H|H]%elem_of_cons]%elem_of_cons; try discriminate.
    by apply elem_of_nil in H.
  - intros [H|H]%elem_of_cons; [discriminate | by apply elem_of_nil in H].
Defined.





(** ** What a successful [evaluate_search] guarantees *)

Lemma calls_succeed_covers {E : Type} (tbl : Hybrid.Table E) (queries : list string)
    (expected_ids : list (list string)) (embeddings : list E) (k : Z) :
  Hybrid.calls_succeed tbl queries expected_ids embeddings k ->
  (length queries <= length expected_ids)%nat
  /\ (length queries <= length embeddings)%nat
  /\ forall idx eid, (idx < length queries)%nat -> expected_ids !! idx = Some eid -> eid <> [].
Proof.
  intros Hcalls.
  assert (Hlt : forall idx, (idx < length queries)%nat ->
            (idx < length expected_ids)%nat /\ (idx < length embeddings)%nat
            /\ forall eid, expected_ids !! idx = Some eid -> eid <> []).
  { intros idx Hidx. destruct (lookup_lt_is_Some_2 queries idx Hidx) as [query Hq].
    destruct (Hcalls idx query Hq) as (eid & emb & Heid & Hne & Hemb & _).
    split; [by eapply lookup_lt_Some|]. split; [by eapply lookup_lt_Some|].
    intros eid' Heid'. congruence. }
  split; [|split].
  - destruct (decide (length queries = 0)%nat) as [->|Hpos]; [lia|].
    destruct (Hlt (length queries - 1)%nat); lia.
  - destruct (decide (length queries = 0)%nat) as [->|Hpos]; [lia|].
    destruct (Hlt (length queries - 1)%nat) as (_ & ? & _); lia.
  - intros idx eid Hidx. by apply Hlt.
Qed.

(** X6: when [evaluate_search] returns, each of its three lists holds exactly
    one record per query; it returns exactly when, for every query, the
    expected ids and the embedding at its position exist, the expected list
    is not empty and the three searches return.  In particular a list of
    expected ids or of embeddings shorter than the queries makes it raise
    instead of evaluating a prefix. *)
Theorem evaluate_search_one_record_per_query {E : Type} (tbl : Hybrid.Table E)
    (queries : list string) (expected_ids : list (list string)) (embeddings : list E)
    (k : Z) :
  (forall metrics,
     Hybrid.evaluate_search tbl queries expected_ids embeddings k = Ok metrics ->
     length (Hybrid.semantic metrics) = length queries
     /\ length (Hybrid.lexical metrics) = length queries
     /\ length (Hybrid.hybrid metrics) = length queries)
  /\ (is_ok (Hybrid.evaluate_search tbl queries expected_ids embeddings k) = true
      <-> Hybrid.calls_succeed tbl queries expected_ids embeddings k)
  /\ ((length expected_ids < length queries)%nat \/ (length embeddings < length queries)%nat ->
      is_ok (Hybrid.evaluate_search tbl queries expected_ids embeddings k) = false).
Proof.
  split; [|split].
  - intros metrics [_ Hrecs]%evaluate_search_inv.
    pose proof (group_records_from_length tbl expected_ids embeddings k) as Hlen.
    split; [|split].
    + apply (Hlen "semantic" queries 0%nat), (Hrecs "semantic").
    + apply (Hlen "lexical" queries 0%nat), (Hrecs "lexical").
    + apply (Hlen "hybrid" queries 0%nat), (Hrecs "hybrid").
  - split.
    + intros [metrics Hm]%is_ok_true. by apply evaluate_search_inv in Hm as [? _].
    + intros Hcalls. apply is_ok_true. by apply evaluate_search_returns.
  - intros Hshort.
    destruct (Hybrid.evaluate_search tbl queries expected_ids embeddings k)
      as [metrics|e] eqn:Hm; [exfalso | done].
    apply evaluate_search_inv in Hm as [Hcalls _].
    apply calls_succeed_covers in Hcalls as (? & ? & _). lia.
Qed.

Lemma evaluate_search_one_record_per_query_witness :
  is_ok (Hybrid.evaluate_search Hybrid.steady_table ["q1"; "q2"] [["1"]] [(); ()] 3) = false.
Proof.
  apply (proj2 (proj2 (evaluate_search_one_record_per_query
                         Hybrid.steady_table ["q1"; "q2"] [["1"]] [(); ()] 3))).
  left. simpl. lia.
Defined.

(** ** Scoring the frame of the tool-selection notebook *)

Lemma mapM_Forall2 {A B : Type} (f : A -> result B) (l : list A) :
  forall ys, mapM f l = Ok ys -> Forall2 (fun x y => f x = Ok y) l ys.
Proof.
  induction l as [|x l IH]; intros ys Hys; simpl in Hys.
  - injection Hys as <-. constructor.
  - apply bind_inv in Hys as (y & Hy & Hys).
    apply bind_inv in Hys as (ys' & Hys' & Hys).
    injection Hys as <-. constructor; [done | by apply IH].
Qed.

Lemma scored_rows_spec (df : list ToolCalls.QueryRow) :
  forall (ps rs : list float),
    Forall2 (fun x p => ToolCalls.calculate_precision
                          (ToolCalls.actual x) (ToolCalls.expected x) = Ok p) df ps ->
    Forall2 (fun x r => ToolCalls.calculate_recall
                          (ToolCalls.actual x) (ToolCalls.expected x) = Ok r) df rs ->
    Forall2 (fun x s =>
               ToolCalls.row s = x
               /\ ToolCalls.calculate_precision (ToolCalls.actual x) (ToolCalls.expected x)
                  = Ok (ToolCalls.precision s)
               /\ ToolCalls.calculate_recall (ToolCalls.actual x) (ToolCalls.expected x)
                  = Ok (ToolCalls.recall s))
            df
            (zip_with (fun x pr => {| ToolCalls.row := x; ToolCalls.precision := fst pr;
                                      ToolCalls.recall := snd pr |})
                      df (zip ps rs)).
Proof.
  induction df as [|x df IH]; intros ps rs Hps Hrs.
  - constructor.
  - inversion Hps as [|? p ? ps' Hp Hps']; subst.
    inversion Hrs as [|? r ? rs' Hr Hrs']; subst.
    simpl. constructor; [done | by apply IH].
Qed.

Lemma scoring_keeps_rows_aux (df : list ToolCalls.QueryRow) :
  df <> [] ->
  exists rows,
    ToolCalls.calculate_precision_recall_for_queries df = Ok rows
    /\ Forall2 (fun x s =>
                  ToolCalls.row s = x
                  /\ ToolCalls.calculate_precision (ToolCalls.actual x) (ToolCalls.expected x)
                     = Ok (ToolCalls.precision s)
                  /\ ToolCalls.calculate_recall (ToolCalls.actual x) (ToolCalls.expected x)
                     = Ok (ToolCalls.recall s))
               df rows.
Proof.
  intros Hdf. unfold ToolCalls.calculate_precision_recall_for_queries.
  destruct (Py.is_empty df) eqn:Hempty; [by destruct df|].
  destruct (mapM_returns (fun x => ToolCalls.calculate_precision
                                     (ToolCalls.actual x) (ToolCalls.expected x)) df)
    as (ps & Hps & _); [intros; apply is_ok_true, precision_returns|].
  destruct (mapM_returns (fun x => ToolCalls.calculate_recall
                                     (ToolCalls.actual x) (ToolCalls.expected x)) df)
    as (rs & Hrs & _); [intros; apply is_ok_true, recall_returns|].
  rewrite Hps, Hrs. simpl. eexists. split; [done|].
  apply scored_rows_spec; by apply mapM_Forall2.
Qed.

(** X7: on a frame with at least one row
    [calculate_precision_recall_for_queries] does not raise and returns the
    rows of the frame in their order, each with the precision and the
    recall of its own [actual] and [expected] lists; in particular the
    scored frame has as many rows as the frame.  On a frame without rows it
    raises [ValueError]. *)
Theorem scoring_keeps_rows (df : list ToolCalls.QueryRow) :
  (df = [] -> ToolCalls.calculate_precision_recall_for_queries df = Raise ValueError)
  /\ (df <> [] ->
      exists rows,
        ToolCalls.calculate_precision_recall_for_queries df = Ok rows
        /\ map ToolCalls.row rows = df
        /\ Forall (fun s =>
                     ToolCalls.calculate_precision
                       (ToolCalls.actual (ToolCalls.row s))
                       (ToolCalls.expected (ToolCalls.row s))
                     = Ok (ToolCalls.precision s)
                     /\ ToolCalls.calculate_recall
                          (ToolCalls.actual (ToolCalls.row s))
                          (ToolCalls.expected (ToolCalls.row s))
                        = Ok (ToolCalls.recall s))
                  rows).
Proof.
  split; [by intros ->|]. intros Hdf.
  destruct (scoring_keeps_rows_aux df Hdf) as (rows & Hrows & Hall).
  exists rows. split; [done|]. clear Hrows Hdf.
  induction Hall as [|x s df rows (Hrow & Hp & Hr) _ [IH1 IH2]]; [done|].
  split; [simpl; by rewrite Hrow, IH1|].
  constructor; [by rewrite Hrow | done].
Qed.

Lemma scoring_keeps_rows_witness :
  exists rows,
    ToolCalls.calculate_precision_recall_for_queries ToolCalls.notebook_df = Ok rows
    /\ map ToolCalls.row rows = ToolCalls.notebook_df.
Proof.
  destruct (proj2 (scoring_keeps_rows ToolCalls.notebook_df)) as (rows & Hrows & Hkeep & _).
  - discriminate.
  - by exists rows.
Defined.

Lemma extract_tool_calls_spec (response : ToolCalls.Response) (name : string) :
  name ∈ ToolCalls.extract_tool_calls response
  <-> exists items item,
        ToolCalls.output response = Some items /\ item ∈ items
        /\ ToolCalls.item_type item = "function_call"
        /\ ToolCalls.item_name item = name.
Proof.
  unfold ToolCalls.extract_tool_calls.
  destruct (ToolCalls.output response) as [[|i items]|].
  - split; [by intros ?%elem_of_nil|].
    intros (? & ? & [= <-] & ?%elem_of_nil & _). done.
  - rewrite list_elem_of_fmap. split.
    + intros (item & -> & Hin). apply list_elem_of_In, filter_In in Hin as [Hin Ht].
      apply String.eqb_eq in Ht. exists (i :: items), item.
      split; [done|]. split; [by apply list_elem_of_In | done].
    + intros (items' & item & [= <-] & Hin & Ht & Hn). exists item. split; [done|].
      apply list_elem_of_In, filter_In. split; [by apply list_elem_of_In|].
      by apply String.eqb_eq.
  - split; [by intros ?%elem_of_nil|]. by intros (? & ? & [=] & _).
Qed.

(** X8: when there is at least one test and every model call returns, the
    run yields one scored row per test, in the order of the tests: the row
    of a test holds its query, its expected tools, the names of the
    [function_call] items of its response (and of no other item) as
    [actual], the elapsed time rounded to two decimals, and the precision
    and recall of these two lists.  With no test at all the run raises
    [ValueError]. *)
Theorem run_tests_rows (process_user_query : string -> result (ToolCalls.Response * float))
    (tests : list (string * list string)) :
  ToolCalls.run_tests process_user_query [] = Raise ValueError
  /\
  (tests <> [] ->
  (forall test_item,
     test_item ∈ tests -> is_ok (process_user_query (fst test_item)) = true) ->
  exists rows,
    ToolCalls.run_tests process_user_query tests = Ok rows
    /\ Forall2 (fun test_item s =>
                  exists response elapsed,
                    process_user_query (fst test_item) = Ok (response, elapsed)
                    /\ ToolCalls.query (ToolCalls.row s) = fst test_item
                    /\ ToolCalls.expected (ToolCalls.row s) = snd test_item
                    /\ ToolCalls.actual (ToolCalls.row s) = ToolCalls.extract_tool_calls response
                    /\ (forall name, name ∈ ToolCalls.actual (ToolCalls.row s) <->
                          exists items item,
                            ToolCalls.output response = Some items /\ item ∈ items
                            /\ ToolCalls.item_type item = "function_call"
                            /\ ToolCalls.item_name item = name)
                    /\ ToolCalls.time (ToolCalls.row s) = Py.round2 elapsed
                    /\ ToolCalls.calculate_precision
                         (ToolCalls.extract_tool_calls response) (snd test_item)
                       = Ok (ToolCalls.precision s)
                    /\ ToolCalls.calculate_recall
                         (ToolCalls.extract_tool_calls response) (snd test_item)
                       = Ok (ToolCalls.recall s))
               tests rows).
Proof.
  split; [reflexivity|].
  intros Htests Hall. unfold ToolCalls.run_tests, ToolCalls.gather.
  destruct (mapM_returns (fun c => c) (map (fun t => process_user_query (fst t)) tests))
    as (results & Hres & _).
  { intros c (t & -> & Ht)%list_elem_of_fmap. by apply Hall. }
  rewrite Hres. simpl. apply mapM_Forall2 in Hres.
  match goal with
  | |- context [ToolCalls.calculate_precision_recall_for_queries ?d] => set (df := d)
  end.
  destruct (scoring_keeps_rows_aux df) as (rows & -> & Hrows).
  { subst df. destruct tests as [|t tests]; [done|].
    inversion Hres as [|? result ? results']; subst. done. }
  exists rows. split; [done|].
  subst df. clear Hall Htests. revert results rows Hres Hrows.
  induction tests as [|t tests IH]; intros results rows Hres Hrows.
  - inversion Hres; subst. simpl in Hrows. inversion Hrows; subst. constructor.
  - simpl in Hres. inversion Hres as [|? [response elapsed] ? results' Hcall Hres']; subst.
    simpl in Hrows. inversion Hrows as [|? s ? rows' (Hrow & Hp & Hr) Hrows']; subst.
    constructor; [|by eapply IH].
    exists response, elapsed. rewrite Hrow. simpl in *.
    repeat (split; [done|]). split; [|done].
    intros name. apply extract_tool_calls_spec.
Qed.

Lemma run_tests_rows_witness :
  exists rows,
    ToolCalls.run_tests ToolCalls.flaky_endpoint [("first", ["send_email"])] = Ok rows.
Proof.
  destruct (proj2 (run_tests_rows ToolCalls.flaky_endpoint [("first", ["send_email"])]))
    as (rows & Hrows & _).
  - discriminate.
  - intros test_item ->%list_elem_of_singleton. reflexivity.
  - by exists rows.
Defined.

(** ** Shape of the per-tool breakdown *)

Lemma per_tool_rows_elem (df : list ToolCalls.QueryRow) (rows : list ToolCalls.ToolRow) :
  ToolCalls.calculate_per_tool_recall df = Ok rows ->
  rows = map ToolCalls.round_row
           (ToolCalls.sort_values_desc
              (map (ToolCalls.tool_summary df) (elements (ToolCalls.collect_tools df)))).
Proof.
  rewrite per_tool_recall_unfold. destruct (Py.is_empty _); [done|]. by intros [= <-].
Qed.

Lemma counts_ordered (t : string) (df : list ToolCalls.QueryRow) :
  0 <= ToolCalls.correct_count t df <= ToolCalls.expected_count t df
  /\ ToolCalls.expected_count t df <= Py.len df.
Proof.
  unfold ToolCalls.correct_count, ToolCalls.expected_count, Py.len.
  induction df as [|r df IH]; simpl; [lia|].
  destruct (Py.contains t (ToolCalls.expected r)),
           (Py.contains t (ToolCalls.actual r)); simpl; lia.
Qed.

(** X9: in every row of the breakdown
    [0 <= correct_calls <= expected_calls <= len(df)]. *)
Theorem per_tool_counts_ordered (df : list ToolCalls.QueryRow) (rows : list ToolCalls.ToolRow)
    (r : ToolCalls.ToolRow) :
  ToolCalls.calculate_per_tool_recall df = Ok rows -> r ∈ rows ->
  0 <= ToolCalls.correct_calls r <= ToolCalls.expected_calls r
  /\ ToolCalls.expected_calls r <= Py.len df.
Proof.
  intros ->%per_tool_rows_elem (x & -> & Hx)%list_elem_of_fmap.
  rewrite sort_values_desc_perm in Hx. apply list_elem_of_fmap in Hx as (t & -> & _).
  simpl. apply counts_ordered.
Qed.

Lemma per_tool_counts_ordered_witness :
  0 <= 2 <= 3 /\ 3 <= Py.len ToolCalls.notebook_df.
Proof.
  apply (per_tool_counts_ordered ToolCalls.notebook_df
           [ {| ToolCalls.tool := "get_calendar_events"; ToolCalls.correct_calls := 3;
                ToolCalls.expected_calls := 3; ToolCalls.tool_recall := 1 |};
             {| ToolCalls.tool := "create_reminder"; ToolCalls.correct_calls := 2;
                ToolCalls.expected_calls := 3; ToolCalls.tool_recall := 0.67 |};
             {| ToolCalls.tool := "send_email"; ToolCalls.correct_calls := 1;
                ToolCalls.expected_calls := 3; ToolCalls.tool_recall := 0.33 |} ]
           {| ToolCalls.tool := "create_reminder"; ToolCalls.correct_calls := 2;
              ToolCalls.expected_calls := 3; ToolCalls.tool_recall := 0.67 |}).
  - vm_compute. reflexivity.
  - apply list_elem_of_further, list_elem_of_here.
Defined.

(** X10: the breakdown has exactly one row per distinct tool: the tools of
    its rows are pairwise different, and they are the tools that occur in
    some expected or actual list. *)
Theorem per_tool_one_row_each (df : list ToolCalls.QueryRow) (rows : list ToolCalls.ToolRow) :
  ToolCalls.calculate_per_tool_recall df = Ok rows ->
  NoDup (map ToolCalls.tool rows)
  /\ forall t, t ∈ map ToolCalls.tool rows
       <-> exists r, r ∈ df /\ (t ∈ ToolCalls.expected r \/ t ∈ ToolCalls.actual r).
Proof.
  intros ->%per_tool_rows_elem.
  assert (Hperm : map ToolCalls.tool
                    (map ToolCalls.round_row
                       (ToolCalls.sort_values_desc
                          (map (ToolCalls.tool_summary df)
                               (elements (ToolCalls.collect_tools df)))))
                  ≡ₚ elements (ToolCalls.collect_tools df)).
  { rewrite map_map. simpl. rewrite sort_values_desc_perm, map_map. simpl.
    by rewrite map_id. }
  split.
  - rewrite Hperm. apply NoDup_elements.
  - intros t. rewrite Hperm, elem_of_elements. apply collect_tools_spec.
Qed.

Lemma per_tool_one_row_each_witness :
  NoDup ["get_calendar_events"; "create_reminder"; "send_email"].
Proof.
  apply (per_tool_one_row_each ToolCalls.notebook_df
           [ {| ToolCalls.tool := "get_calendar_events"; ToolCalls.correct_calls := 3;
                ToolCalls.expected_calls := 3; ToolCalls.tool_recall := 1 |};
             {| ToolCalls.tool := "create_reminder"; ToolCalls.correct_calls := 2;
                ToolCalls.expected_calls := 3; ToolCalls.tool_recall := 0.67 |};
             {| ToolCalls.tool := "send_email"; ToolCalls.correct_calls := 1;
                ToolCalls.expected_calls := 3; ToolCalls.tool_recall := 0.33 |} ]).
  vm_compute. reflexivity.
Defined.

Lemma counts_same_members (t : string) (df df' : list ToolCalls.QueryRow) :
  Forall2 (fun r r' =>
             (forall u, u ∈ ToolCalls.expected r <-> u ∈ ToolCalls.expected r')
             /\ (forall u, u ∈ ToolCalls.actual r <-> u ∈ ToolCalls.actual r')) df df' ->
  ToolCalls.expected_count t df = ToolCalls.expected_count t df'
  /\ ToolCalls.correct_count t df = ToolCalls.correct_count t df'.
Proof.
  induction 1 as [|r r' df df' [He Ha] _ [IH1 IH2]]; [done|].
  rewrite (expected_count_cons t r df), (expected_count_cons t r' df').
  rewrite (correct_count_cons t r df), (correct_count_cons t r' df'), IH1, IH2.
  unfold ToolCalls.expected_count, ToolCalls.correct_count. simpl.
  rewrite (contains_ext _ _ He t), (contains_ext _ _ Ha t).
  by destruct (Py.contains t (ToolCalls.expected r')),
              (Py.contains t (ToolCalls.actual r')).
Qed.

Lemma collect_tools_same_members (df df' : list ToolCalls.QueryRow) :
  Forall2 (fun r r' =>
             (forall u, u ∈ ToolCalls.expected r <-> u ∈ ToolCalls.expected r')
             /\ (forall u, u ∈ ToolCalls.actual r <-> u ∈ ToolCalls.actual r')) df df' ->
  ToolCalls.collect_tools df = ToolCalls.collect_tools df'.
Proof.
  intros Hsame. apply set_eq. intros t. rewrite !collect_tools_spec.
  induction Hsame as [|r r' df df' [He Ha] _ IH].
  - split; by intros (? & ?%elem_of_nil & _).
  - split.
    + intros (x & [->|Hx]%elem_of_cons & Ht).
      * exists r'. split; [by left|]. by rewrite <- He, <- Ha.
      * destruct (proj1 IH) as (x' & Hx' & Ht'); [by exists x|].
        exists x'. split; [by right | done].
    + intros (x & [->|Hx]%elem_of_cons & Ht).
      * exists r. split; [by left|]. by rewrite He, Ha.
      * destruct (proj2 IH) as (x' & Hx' & Ht'); [by exists x|].
        exists x'. split; [by right | done].
Qed.

(** X11: the breakdown reads each row's [expected] and [actual] lists as
    sets: listing a tool twice in a row, or listing the tools of a row in
    another order, does not change the rows of the result (unlike
    [calculate_precision] and [calculate_recall], which count every
    occurrence).  The two breakdowns return or raise alike, and when they
    return they hold the same rows; the order of rows with equal recall is
    left open, since it follows the iteration order of a set. *)
Theorem per_tool_reads_sets (df df' : list ToolCalls.QueryRow) :
  Forall2 (fun r r' =>
             (forall u, u ∈ ToolCalls.expected r <-> u ∈ ToolCalls.expected r')
             /\ (forall u, u ∈ ToolCalls.actual r <-> u ∈ ToolCalls.actual r')) df df' ->
  is_ok (ToolCalls.calculate_per_tool_recall df)
  = is_ok (ToolCalls.calculate_per_tool_recall df')
  /\ forall rows rows',
       ToolCalls.calculate_per_tool_recall df = Ok rows ->
       ToolCalls.calculate_per_tool_recall df' = Ok rows' ->
       rows ≡ₚ rows'
       /\ forall t, ToolCalls.tool_summary df t = ToolCalls.tool_summary df' t.
Proof.
  intros Hsame.
  assert (Hsummary : forall t, ToolCalls.tool_summary df t = ToolCalls.tool_summary df' t).
  { intros t. unfold ToolCalls.tool_summary.
    by destruct (counts_same_members t df df' Hsame) as [-> ->]. }
  split.
  - rewrite !per_tool_recall_unfold, (collect_tools_same_members df df' Hsame).
    by destruct (Py.is_empty _).
  - intros rows rows' ->%per_tool_rows_elem ->%per_tool_rows_elem. split; [|done].
    rewrite !sort_values_desc_perm, (collect_tools_same_members df df' Hsame).
    by rewrite (map_ext _ _ Hsummary).
Qed.

Lemma per_tool_reads_sets_witness :
  is_ok (ToolCalls.calculate_per_tool_recall
           [ {| ToolCalls.query := "q"; ToolCalls.expected := ["a"; "b"; "a"];
                ToolCalls.actual := ["b"; "b"]; ToolCalls.time := 1 |} ])
  = is_ok (ToolCalls.calculate_per_tool_recall
             [ {| ToolCalls.query := "q"; ToolCalls.expected := ["b"; "a"];
                  ToolCalls.actual := ["b"]; ToolCalls.time := 1 |} ]).
Proof.
  apply per_tool_reads_sets. constructor; [|constructor]. simpl. split.
  - intros u. rewrite !elem_of_cons, !elem_of_nil. tauto.
  - intros u. rewrite !elem_of_cons, !elem_of_nil. tauto.
Defined.

(** ** Order of the breakdown *)

Lemma SFltb_asym (a b : spec_float) : SFltb a b = true -> SFltb b a = false.
Proof.
  unfold SFltb, SFcompare.
  destruct a as [sa|sa| |sa ma ea], b as [sb|sb| |sb mb eb];
    try destruct sa; try destruct sb; try done.
  - rewrite (Z.compare_antisym ea eb). destruct (ea ?= eb) eqn:He; simpl; try done.
    change (Pos.compare_cont Eq mb ma) with (mb ?= ma)%positive.
    change (Pos.compare_cont Eq ma mb) with (ma ?= mb)%positive.
    rewrite (Pos.compare_antisym ma mb). by destruct (ma ?= mb)%positive.
  - rewrite (Z.compare_antisym ea eb). destruct (ea ?= eb) eqn:He; simpl; try done.
    change (Pos.compare_cont Eq mb ma) with (mb ?= ma)%positive.
    change (Pos.compare_cont Eq ma mb) with (ma ?= mb)%positive.
    rewrite (Pos.compare_antisym ma mb). by destruct (ma ?= mb)%positive.
Qed.

Lemma ltb_asym (x y : float) : (x <? y)%float = true -> (y <? x)%float = false.
Proof. rewrite !ltb_spec. apply SFltb_asym. Qed.

Lemma insert_desc_sorted (r : ToolCalls.ToolRow) (l : list ToolCalls.ToolRow) :
  Sorted (fun a b => (ToolCalls.tool_recall a <? ToolCalls.tool_recall b)%float = false) l ->
  Sorted (fun a b => (ToolCalls.tool_recall a <? ToolCalls.tool_recall b)%float = false)
         (ToolCalls.insert_desc r l).
Proof.
  induction l as [|r' l IH]; intros Hs; simpl.
  - repeat constructor.
  - destruct (ToolCalls.tool_recall r <? ToolCalls.tool_recall r')%float eqn:Hlt.
    + apply Sorted_inv in Hs as [Hs Hhd]. constructor; [by apply IH|].
      destruct l as [|r'' l]; simpl.
      * constructor. by apply ltb_asym.
      * destruct (ToolCalls.tool_recall r <? ToolCalls.tool_recall r'')%float.
        -- constructor. by apply HdRel_inv in Hhd.
        -- constructor. by apply ltb_asym.
    + constructor; [done|]. by constructor.
Qed.

Lemma sort_values_desc_sorted (l : list ToolCalls.ToolRow) :
  Sorted (fun a b => (ToolCalls.tool_recall a <? ToolCalls.tool_recall b)%float = false)
         (ToolCalls.sort_values_desc l).
Proof.
  induction l as [|r l IH]; simpl; [constructor|]. by apply insert_desc_sorted.
Qed.

(** X12: the rows of the breakdown come in non-increasing order of the
    recall as it is before the final rounding: no row has a smaller
    unrounded quotient than the row that follows it. *)
Theorem per_tool_rows_sorted (df : list ToolCalls.QueryRow) (rows : list ToolCalls.ToolRow) :
  ToolCalls.calculate_per_tool_recall df = Ok rows ->
  exists unrounded,
    rows = map ToolCalls.round_row unrounded
    /\ Forall (fun r => r = ToolCalls.tool_summary df (ToolCalls.tool r)) unrounded
    /\ Sorted (fun a b => (ToolCalls.tool_recall a <? ToolCalls.tool_recall b)%float = false)
              unrounded.
Proof.
  intros ->%per_tool_rows_elem. eexists. split; [done|]. split.
  - apply Forall_forall. intros r Hr. rewrite sort_values_desc_perm in Hr.
    by apply list_elem_of_fmap in Hr as (t & -> & _).
  - apply sort_values_desc_sorted.
Qed.

Lemma per_tool_rows_sorted_witness :
  exists unrounded,
    [ {| ToolCalls.tool := "get_calendar_events"; ToolCalls.correct_calls := 3;
         ToolCalls.expected_calls := 3; ToolCalls.tool_recall := 1 |};
      {| ToolCalls.tool := "create_reminder"; ToolCalls.correct_calls := 2;
         ToolCalls.expected_calls := 3; ToolCalls.tool_recall := 0.67 |};
      {| ToolCalls.tool := "send_email"; ToolCalls.correct_calls := 1;
         ToolCalls.expected_calls := 3; ToolCalls.tool_recall := 0.33 |} ]
    = map ToolCalls.round_row unrounded
    /\ Sorted (fun a b => (ToolCalls.tool_recall a <? ToolCalls.tool_recall b)%float = false)
              unrounded.
Proof.
  destruct (per_tool_rows_sorted ToolCalls.notebook_df
              [ {| ToolCalls.tool := "get_calendar_events"; ToolCalls.correct_calls := 3;
                   ToolCalls.expected_calls := 3; ToolCalls.tool_recall := 1 |};
                {| ToolCalls.tool := "create_reminder"; ToolCalls.correct_calls := 2;
                   ToolCalls.expected_calls := 3; ToolCalls.tool_recall := 0.67 |};
                {| ToolCalls.tool := "send_email"; ToolCalls.correct_calls := 1;
                   ToolCalls.expected_calls := 3; ToolCalls.tool_recall := 0.33 |} ])
    as (unrounded & Hrows & _ & Hsorted).
  - vm_compute. reflexivity.
  - by exists unrounded.
Defined.

(** ** Embedding in batches *)

Section BatchEmbedFacts.
Context {V E : Type}.
Variable embeddings_create : list string -> result (list V).
Variable np_array : V -> E.

(** The batch that starts at the [j]-th multiple of the batch size. *)
Lemma slice_batch {A : Type} (l : list A) (j : nat) :
  Py.slice l (j * 100) (j * 100 + 100) = take 100 (drop (j * 100) l).
Proof. unfold Py.slice. f_equal. lia. Qed.

Lemma batches_concat (texts : list string) (c : nat) :
  forall a,
    concat (map (fun j => take 100 (drop (j * 100) texts)) (seq a c))
    = take (c * 100) (drop (a * 100) texts).
Proof.
  induction c as [|c IH]; intros a; cbn [seq map concat]; [done|].
  rewrite IH. replace (S a * 100)%nat with (a * 100 + 100)%nat by lia.
  rewrite <- drop_drop.
  replace (S c * 100)%nat with (100 + c * 100)%nat by lia.
  apply take_take_drop.
Qed.

Lemma batch_embed_loop_spec (h : list string -> list V) (texts : list string) (c : nat) :
  forall (a : nat) (embeddings : list E),
    (forall j, (a <= j < a + c)%nat ->
       embeddings_create (take 100 (drop (j * 100) texts))
       = Ok (h (take 100 (drop (j * 100) texts)))) ->
    Hybrid.batch_embed_loop embeddings_create np_array texts
      (map (fun j => (j * 100)%nat) (seq a c)) embeddings
    = Ok (embeddings
          ++ concat (map (fun j => map np_array (h (take 100 (drop (j * 100) texts))))
                         (seq a c))).
Proof.
  induction c as [|c IH]; intros a embeddings Hapi;
    cbn [seq map concat Hybrid.batch_embed_loop].
  - by rewrite app_nil_r.
  - unfold Hybrid.batch_size. rewrite slice_batch, Hapi by lia.
    cbn [mbind result_bind].
    rewrite IH by (intros j Hj; apply Hapi; lia). by rewrite <- app_assoc.
Qed.

Lemma batch_embed_loop_raises (texts : list string) (c : nat) :
  forall (a : nat) (embeddings : list E) (j : nat),
    (a <= j < a + c)%nat ->
    is_ok (embeddings_create (take 100 (drop (j * 100) texts))) = false ->
    is_ok (Hybrid.batch_embed_loop embeddings_create np_array texts
             (map (fun j => (j * 100)%nat) (seq a c)) embeddings) = false.
Proof.
  induction c as [|c IH]; intros a embeddings j Hj Hfail;
    cbn [seq map Hybrid.batch_embed_loop]; [lia|].
  unfold Hybrid.batch_size. rewrite slice_batch.
  destruct (embeddings_create (take 100 (drop (a * 100) texts))) as [response|e] eqn:Hcall;
    cbn [mbind result_bind is_ok]; [|done].
  destruct (decide (j = a)) as [->|Hne]; [by rewrite Hcall in Hfail|].
  apply (IH (S a) _ j); [lia | done].
Qed.

End BatchEmbedFacts.

Lemma batch_count (n : nat) :
  let c := ((n + Hybrid.batch_size - 1) / Hybrid.batch_size)%nat in
  (n <= c * 100)%nat /\ forall j, (j < c)%nat -> (j * 100 < n)%nat.
Proof.
  unfold Hybrid.batch_size. cbv zeta.
  pose proof (Nat.div_mod_eq (n + 100 - 1) 100) as Hdm.
  pose proof (Nat.mod_upper_bound (n + 100 - 1) 100 ltac:(lia)) as Hmod.
  split; [lia|]. intros j Hj. nia.
Qed.

(** X13: when the embedding service answers a batch with one embedding per
    text, in order, [batch_embed] returns exactly one embedding per text, in
    the order of the texts: cutting the input into batches of 100 is not
    visible in the result. *)
Theorem batch_embed_pointwise {V E : Type}
    (embeddings_create : list string -> result (list V)) (np_array : V -> E)
    (embed : string -> V) (texts : list string) :
  (forall batch, batch <> [] -> (length batch <= 100)%nat ->
     embeddings_create batch = Ok (map embed batch)) ->
  Hybrid.batch_embed embeddings_create np_array texts
  = Ok (map (fun text => np_array (embed text)) texts).
Proof.
  intros Hapi. unfold Hybrid.batch_embed, Py.range_step.
  destruct (batch_count (length texts)) as [Hcover Hstart].
  set (c := ((length texts + Hybrid.batch_size - 1) / Hybrid.batch_size)%nat) in *.
  rewrite (batch_embed_loop_spec embeddings_create np_array (map embed)).
  - rewrite app_nil_l. f_equal.
    assert (Hmap : forall a,
              concat (map (fun j => map np_array (map embed (take 100 (drop (j * 100) texts))))
                          (seq a c))
              = map (fun text => np_array (embed text))
                    (concat (map (fun j => take 100 (drop (j * 100) texts)) (seq a c)))).
    { clear. induction c as [|c IH]; intros a; cbn [seq map concat]; [done|].
      by rewrite map_app, map_map, IH. }
    rewrite Hmap, batches_concat. change (0 * 100)%nat with 0%nat.
    rewrite drop_0. by rewrite take_ge.
  - intros j Hj. apply Hapi.
    + intros Hnil. apply (f_equal length) in Hnil.
      rewrite length_take, length_drop in Hnil. cbn [length] in Hnil.
      specialize (Hstart j ltac:(lia)). lia.
    + rewrite length_take. lia.
Qed.

Lemma batch_embed_pointwise_witness :
  Hybrid.batch_embed (fun batch => Ok (map String.length batch)) Z.of_nat ["a"; "bc"; ""]
  = Ok [1; 2; 0].
Proof.
  apply (batch_embed_pointwise (fun batch => Ok (map String.length batch)) Z.of_nat
           String.length ["a"; "bc"; ""]).
  reflexivity.
Defined.

(** X14: [batch_embed] sends every text to the service exactly once and in
    order, in batches that are never empty and never longer than 100: with a
    service that answers each batch by the batch itself, the result is the
    list of the batches sent, whose concatenation is the input. *)
Theorem batch_embed_batches (texts : list string) :
  exists batches,
    Hybrid.batch_embed (fun batch => Ok [batch]) (fun batch => batch) texts = Ok batches
    /\ concat batches = texts
    /\ Forall (fun batch => (0 < length batch <= 100)%nat) batches
    /\ length batches = ((length texts + 99) / 100)%nat.
Proof.
  unfold Hybrid.batch_embed, Py.range_step.
  destruct (batch_count (length texts)) as [Hcover Hstart].
  set (c := ((length texts + Hybrid.batch_size - 1) / Hybrid.batch_size)%nat) in *.
  rewrite (batch_embed_loop_spec _ _ (fun batch => [batch])) by done.
  rewrite app_nil_l. cbn [map].
  assert (Hflat : forall a,
            concat (map (fun j => [take 100 (drop (j * 100) texts)]) (seq a c))
            = map (fun j => take 100 (drop (j * 100) texts)) (seq a c)).
  { clear. induction c as [|c IH]; intros a; cbn [seq map concat]; [done|].
    by rewrite IH. }
  rewrite Hflat. eexists. split; [done|]. split; [|split].
  - rewrite batches_concat. change (0 * 100)%nat with 0%nat.
    rewrite drop_0. by rewrite take_ge.
  - apply Forall_forall. intros batch (j & -> & Hj)%list_elem_of_fmap.
    apply list_elem_of_In, in_seq in Hj.
    rewrite length_take, length_drop. specialize (Hstart j ltac:(lia)). lia.
  - rewrite length_map, length_seq. subst c. unfold Hybrid.batch_size.
    f_equal. lia.
Qed.

(** X15: a batch on which the service raises makes [batch_embed] raise,
    whatever the other batches return. *)
Theorem batch_embed_raises {V E : Type}
    (embeddings_create : list string -> result (list V)) (np_array : V -> E)
    (texts : list string) (j : nat) :
  (j * 100 < length texts)%nat ->
  is_ok (embeddings_create (Py.slice texts (j * 100) (j * 100 + 100))) = false ->
  is_ok (Hybrid.batch_embed embeddings_create np_array texts) = false.
Proof.
  intros Hj Hfail. unfold Hybrid.batch_embed, Py.range_step.
  rewrite slice_batch in Hfail.
  apply (batch_embed_loop_raises embeddings_create np_array texts _ 0 [] j); [|done].
  unfold Hybrid.batch_size.
  pose proof (Nat.div_mod_eq (length texts + 100 - 1) 100) as Hdm.
  pose proof (Nat.mod_upper_bound (length texts + 100 - 1) 100 ltac:(lia)) as Hmod.
  split; [lia|]. nia.
Qed.

Lemma batch_embed_raises_witness :
  is_ok (Hybrid.batch_embed
           (fun batch => if Py.is_empty batch then Ok [] else Raise (AdapterError "rate limit"))
           (fun v : nat => v) ["a"; "b"]) = false.
Proof.
  apply (batch_embed_raises _ _ ["a"; "b"] 0); [simpl; lia | reflexivity].
Defined.

(** ** The rewards of the GRPO notebook *)

Lemma prefix_spec (a d : string) :
  String.prefix a d = true <-> exists post, d = String.append a post.
Proof.
  revert d. induction a as [|c a IH]; intros d.
  - split; [intros _; by exists d | intros _; by destruct d].
  - destruct d as [|c' d]; simpl.
    + split; [done | by intros [post [=]]].
    + destruct (ascii_dec c c') as [<-|Hne].
      * rewrite IH. split; intros [post Hpost]; exists post.
        -- simpl. by rewrite Hpost.
        -- simpl in Hpost. by injection Hpost.
      * split; [done|]. intros [post [= ? _]]. done.
Qed.

Lemma occurs_in_spec (label doc : string) :
  Grpo.occurs_in label doc = true
  <-> exists pre post, doc = String.append pre (String.append label post).
Proof.
  induction doc as [|c doc IH]; cbn [Grpo.occurs_in].
  - rewrite orb_false_r, prefix_spec. split.
    + intros [post Hpost]. by exists EmptyString, post.
    + intros ([|? ?] & post & Hpost); [by exists post | done].
  - rewrite orb_true_iff, prefix_spec, IH. split.
    + intros [[post Hpost]|(pre & post & ->)].
      * by exists EmptyString, post.
      * by exists (String c pre), post.
    + intros ([|c' pre] & post & Hpost).
      * left. by exists post.
      * right. exists pre, post. simpl in Hpost. by injection Hpost.
Qed.

Section RewardFacts.
Variable lower : string -> string.

Lemma recall_score_single (answer : string) (docs : list string) :
  Grpo.recall_score lower [answer] docs =
  Ok (if existsb (fun doc => Grpo.occurs_in (lower answer) doc) (map lower docs)
      then 1%float else 0%float).
Proof.
  unfold Grpo.recall_score. simpl.
  by destruct (existsb _ _).
Qed.

Lemma token_char_spec (c : ascii) :
  Py.is_space (Grpo.keep_alnum c) = negb (Grpo.is_token_char c).
Proof. destruct c as [[] [] [] [] [] [] [] []]; reflexivity. Qed.

Lemma split_from_nil (s cur : string) :
  Py.split_from cur s = []
  <-> cur = EmptyString /\ forall c, c ∈ list_ascii_of_string s -> Py.is_space c = true.
Proof.
  revert cur. induction s as [|c s IH]; intros cur; simpl.
  - destruct cur; simpl; split; try done.
    + intros _. split; [done|]. by intros ? ?%elem_of_nil.
    + by intros [? _].
  - destruct (Py.is_space c) eqn:Hc.
    + destruct cur as [|c' cur]; simpl.
      * rewrite IH. split; intros [_ Hall]; (split; [done|]).
        -- intros c0 [->|Hc0]%elem_of_cons; [done | by apply Hall].
        -- intros c0 Hc0. apply Hall. by right.
      * split; [done | by intros [? _]].
    + rewrite IH. split.
      * intros [Hcur _]. by destruct cur.
      * intros [_ Hall]. specialize (Hall c ltac:(by left)). congruence.
Qed.

Lemma sub_non_alnum_chars (s : string) (c : ascii) :
  c ∈ list_ascii_of_string (Grpo.sub_non_alnum s)
  <-> exists c0, c0 ∈ list_ascii_of_string s /\ c = Grpo.keep_alnum c0.
Proof.
  induction s as [|a s IH]; simpl.
  - split; [by intros ?%elem_of_nil | by intros (? & ?%elem_of_nil & _)].
  - rewrite elem_of_cons, IH. split.
    + intros [->|(c0 & Hc0 & ->)]; [exists a | exists c0]; split; try done;
        [by left | by right].
    + intros (c0 & [->|Hc0]%elem_of_cons & ->); [by left | right; by exists c0].
Qed.

Lemma normalize_nil (text : string) :
  Grpo.normalize lower text = []
  <-> forall c, c ∈ list_ascii_of_string (lower text) -> Grpo.is_token_char c = false.
Proof.
  unfold Grpo.normalize, Py.split. rewrite split_from_nil. split.
  - intros [_ Hall] c Hc.
    specialize (Hall (Grpo.keep_alnum c)).
    rewrite token_char_spec in Hall. apply negb_true_iff, Hall, sub_non_alnum_chars.
    by exists c.
  - intros Hall. split; [done|]. intros c (c0 & Hc0 & ->)%sub_non_alnum_chars.
    rewrite token_char_spec. by rewrite (Hall c0 Hc0).
Qed.

Lemma size_tokens_zero (tokens : list string) :
  size (list_to_set tokens : gset string) = 0%nat <-> tokens = [].
Proof.
  split; [|by intros ->].
  intros Hsize. destruct tokens as [|t tokens]; [done|]. exfalso.
  apply size_empty_iff in Hsize. set_solver.
Qed.

Lemma docs_loop_outcome (tokens : list string) (docs : list string) :
  (tokens <> [] -> exists matched,
     Grpo.docs_loop lower (list_to_set tokens) docs = Ok matched)
  /\ (tokens = [] -> docs <> [] ->
      Grpo.docs_loop lower (list_to_set tokens) docs = Raise ZeroDivisionError)
  /\ (docs = [] -> Grpo.docs_loop lower (list_to_set tokens) docs = Ok false).
Proof.
  split; [|split].
  - intros Hne. induction docs as [|doc docs IH]; simpl; [by eexists|].
    rewrite int_truediv_nonzero.
    + simpl. destruct (0.75 <? _)%float; [by eexists | done].
    + intros Hz. apply Hne, size_tokens_zero. lia.
  - intros -> Hdocs. destruct docs as [|doc docs]; [done|]. reflexivity.
  - by intros ->.
Qed.

Lemma answers_loop_no_docs (answers : list string) :
  Grpo.answers_loop lower answers [] = Ok 0%float.
Proof. induction answers as [|a answers IH]; simpl; [done | exact IH]. Qed.

Lemma answers_loop_outcome (answers docs : list string) :
  (Grpo.answers_loop lower answers docs = Ok 0%float
   \/ Grpo.answers_loop lower answers docs = Ok 1%float
   \/ Grpo.answers_loop lower answers docs = Raise ZeroDivisionError)
  /\ (Forall (fun a => Grpo.normalize lower a <> []) answers ->
      Grpo.answers_loop lower answers docs = Ok 0%float
      \/ Grpo.answers_loop lower answers docs = Ok 1%float).
Proof.
  induction answers as [|a answers [IH1 IH2]]; simpl; [by split; [left | left]|].
  destruct (docs_loop_outcome (Grpo.normalize lower a) docs) as (Hok & Hraise & _).
  destruct (Grpo.normalize lower a) as [|t ts] eqn:Hnorm.
  - split.
    + destruct docs as [|doc docs]; [|right; right; by rewrite Hraise].
      simpl. rewrite answers_loop_no_docs. by left.
    + intros Hall. by apply Forall_cons in Hall as [? _].
  - destruct Hok as [matched ->]; [done|]. simpl.
    destruct matched.
    + split; [right; by left | intros _; by right].
    + split; [done|]. intros Hall. apply Forall_cons in Hall as [_ Hall]. by apply IH2.
Qed.

Lemma docs_loop_tokens (answer_tokens : gset string) (docs docs' : list string) :
  Forall2 (fun d d' =>
             (list_to_set (Grpo.normalize lower d) : gset string)
             = list_to_set (Grpo.normalize lower d')) docs docs' ->
  Grpo.docs_loop lower answer_tokens docs = Grpo.docs_loop lower answer_tokens docs'.
Proof.
  induction 1 as [|d d' docs docs' Hd _ IH]; simpl; [done|]. by rewrite Hd, IH.
Qed.

Lemma answers_loop_tokens (answers answers' docs docs' : list string) :
  Forall2 (fun a a' =>
             (list_to_set (Grpo.normalize lower a) : gset string)
             = list_to_set (Grpo.normalize lower a')) answers answers' ->
  Forall2 (fun d d' =>
             (list_to_set (Grpo.normalize lower d) : gset string)
             = list_to_set (Grpo.normalize lower d')) docs docs' ->
  Grpo.answers_loop lower answers docs = Grpo.answers_loop lower answers' docs'.
Proof.
  intros Ha Hd. induction Ha as [|a a' answers answers' Haa _ IH]; simpl; [done|].
  by rewrite Haa, IH, (docs_loop_tokens _ docs docs' Hd).
Qed.

End RewardFacts.

(** X16: with a single expected answer, as every example of the notebook
    has, [recall_score] is 1.0 when the lowercased answer occurs in some
    lowercased retrieved document, and 0.0 otherwise; it does not raise.
    This holds whatever [str.lower] does to the texts. *)
Theorem recall_score_single_answer (lower : string -> string) (answer : string)
    (docs : list string) :
  ((exists doc pre post,
      doc ∈ docs
      /\ lower doc = String.append pre (String.append (lower answer) post)) ->
   Grpo.recall_score lower [answer] docs = Ok 1%float)
  /\ (~ (exists doc pre post,
           doc ∈ docs
           /\ lower doc = String.append pre (String.append (lower answer) post)) ->
      Grpo.recall_score lower [answer] docs = Ok 0%float).
Proof.
  rewrite recall_score_single.
  destruct (existsb _ _) eqn:Hex.
  - split; [done|]. intros Hnone. exfalso. apply Hnone.
    apply existsb_exists in Hex as (d & Hd & Hocc).
    apply list_elem_of_In, list_elem_of_fmap in Hd as (doc & -> & Hdoc).
    apply occurs_in_spec in Hocc as (pre & post & Hocc). by exists doc, pre, post.
  - split; [|done]. intros (doc & pre & post & Hdoc & Heq). exfalso.
    assert (Htrue : existsb (fun doc => Grpo.occurs_in (lower answer) doc)
                      (map lower docs) = true); [|congruence].
    apply existsb_exists. exists (lower doc). split.
    + apply list_elem_of_In, list_elem_of_fmap. by exists doc.
    + apply occurs_in_spec. by exists pre, post.
Qed.

Lemma recall_score_single_answer_witness :
  Grpo.recall_score Grpo.ascii_lower ["GPT-4"] ["about gpt-4."; "other"] = Ok 1%float.
Proof.
  apply (proj1 (recall_score_single_answer Grpo.ascii_lower "GPT-4"
                  ["about gpt-4."; "other"])).
  exists "about gpt-4.", "about ", ".". split; [apply list_elem_of_here | reflexivity].
Defined.

(** X17: both rewards read the answers and the retrieved documents through
    [str.lower] only: two lists of answers, and two lists of documents, that
    agree once lowercased get the same score, whatever the case mapping
    is.  [contains_answer] reads still less: only the set of tokens of each
    lowercased answer and document, so that the order of the words, their
    repetition and the punctuation between them do not count. *)
Theorem rewards_ignore_case (lower : string -> string)
    (answers answers' docs docs' : list string) :
  (map lower answers = map lower answers' ->
   map lower docs = map lower docs' ->
   Grpo.recall_score lower answers docs = Grpo.recall_score lower answers' docs'
   /\ Grpo.contains_answer lower answers docs = Grpo.contains_answer lower answers' docs')
  /\ (Forall2 (fun a a' =>
                 (list_to_set (Grpo.normalize lower (lower a)) : gset string)
                 = list_to_set (Grpo.normalize lower (lower a'))) answers answers' ->
      Forall2 (fun d d' =>
                 (list_to_set (Grpo.normalize lower (lower d)) : gset string)
                 = list_to_set (Grpo.normalize lower (lower d'))) docs docs' ->
      Grpo.contains_answer lower answers docs = Grpo.contains_answer lower answers' docs').
Proof.
  split.
  - intros Ha Hd. unfold Grpo.recall_score, Grpo.contains_answer. by rewrite Ha, Hd.
  - intros Ha Hd. unfold Grpo.contains_answer.
    apply answers_loop_tokens; by apply Forall2_fmap.
Qed.

Lemma rewards_ignore_case_witness :
  (Grpo.recall_score Grpo.ascii_lower ["GPT-4"] ["About gpt-4"]
   = Grpo.recall_score Grpo.ascii_lower ["gpt-4"] ["about GPT-4"]
   /\ Grpo.contains_answer Grpo.ascii_lower ["GPT-4"] ["About gpt-4"]
      = Grpo.contains_answer Grpo.ascii_lower ["gpt-4"] ["about GPT-4"])
  /\ Grpo.contains_answer Grpo.ascii_lower ["GPT-4"] ["About gpt-4"]
     = Grpo.contains_answer Grpo.ascii_lower ["4, gpt"] ["4 4 (About) GPT!"].
Proof.
  split.
  - apply (proj1 (rewards_ignore_case Grpo.ascii_lower
                    ["GPT-4"] ["gpt-4"] ["About gpt-4"] ["about GPT-4"])); reflexivity.
  - apply (proj2 (rewards_ignore_case Grpo.ascii_lower
                    ["GPT-4"] ["4, gpt"] ["About gpt-4"] ["4 4 (About) GPT!"])).
    + constructor; [|constructor]. apply set_eq. intros t. vm_compute. set_solver.
    + constructor; [|constructor]. apply set_eq. intros t. vm_compute. set_solver.
Defined.

(** X18: [contains_answer] is a binary reward that can fail: it returns 0.0
    or 1.0, or raises [ZeroDivisionError].  With no retrieved document it
    returns 0.0.  An answer is lowercased twice before its tokens are taken:
    when each answer so lowercased holds a character of [a-z0-9] the
    function returns 0.0 or 1.0; but a first answer that, so lowercased,
    holds no such character has no token and, met with at least one
    retrieved document, makes the function divide by zero. *)
Theorem contains_answer_outcomes (lower : string -> string) (answers docs : list string) :
  (Grpo.contains_answer lower answers docs = Ok 0%float
   \/ Grpo.contains_answer lower answers docs = Ok 1%float
   \/ Grpo.contains_answer lower answers docs = Raise ZeroDivisionError)
  /\ Grpo.contains_answer lower answers [] = Ok 0%float
  /\ ((forall answer, answer ∈ answers ->
         exists c, c ∈ list_ascii_of_string (lower (lower answer))
                   /\ Grpo.is_token_char c = true) ->
      Grpo.contains_answer lower answers docs = Ok 0%float
      \/ Grpo.contains_answer lower answers docs = Ok 1%float)
  /\ (forall answer rest,
        answers = answer :: rest ->
        (forall c, c ∈ list_ascii_of_string (lower (lower answer)) ->
           Grpo.is_token_char c = false) ->
        docs <> [] ->
        Grpo.contains_answer lower answers docs = Raise ZeroDivisionError).
Proof.
  unfold Grpo.contains_answer. split; [|split; [|split]].
  - apply answers_loop_outcome.
  - apply answers_loop_no_docs.
  - intros Hall. apply answers_loop_outcome.
    apply Forall_forall. intros a (answer & -> & Hin)%list_elem_of_fmap.
    rewrite normalize_nil. intros Hnone.
    destruct (Hall answer Hin) as (c & Hc & Htok). by rewrite (Hnone c Hc) in Htok.
  - intros answer rest -> Hnone Hdocs. simpl.
    destruct (docs_loop_outcome lower (Grpo.normalize lower (lower answer)) (map lower docs))
      as (_ & Hraise & _).
    rewrite Hraise; [done | | by destruct docs].
    by apply normalize_nil.
Qed.

Lemma contains_answer_outcomes_witness :
  Grpo.contains_answer Grpo.ascii_lower ["?!"; "gpt"] ["the gpt paper"]
  = Raise ZeroDivisionError
  /\ (Grpo.contains_answer Grpo.ascii_lower ["GPT"] ["the gpt paper"] = Ok 0%float
      \/ Grpo.contains_answer Grpo.ascii_lower ["GPT"] ["the gpt paper"] = Ok 1%float).
Proof.
  split.
  - apply (proj2 (proj2 (proj2 (contains_answer_outcomes Grpo.ascii_lower
                                  ["?!"; "gpt"] ["the gpt paper"])))
             "?!" ["gpt"]); [reflexivity | | discriminate].
    intros c Hc. simpl in Hc.
    repeat (apply elem_of_cons in Hc as [->|Hc]; [reflexivity|]).
    by apply elem_of_nil in Hc.
  - apply (proj1 (proj2 (proj2 (contains_answer_outcomes Grpo.ascii_lower
                                  ["GPT"] ["the gpt paper"])))).
    intros answer ->%list_elem_of_singleton.
    exists "g"%char. split; [apply list_elem_of_here | reflexivity].
Defined.

(** ** The examples and their split *)

Lemma starts_with_spec (w s : list ascii) :
  Py.starts_with w s = true <-> exists t, s = w ++ t.
Proof.
  revert s. induction w as [|a w IH]; intros s; simpl.
  - split; [by exists s | done].
  - destruct s as [|b s]; [split; [done | by intros [t [=]]]|].
    rewrite andb_true_iff, IH. split.
    + intros [->%Ascii.eqb_eq [t ->]]. by exists t.
    + intros [t [= -> ->]]. split; [apply Ascii.eqb_refl | by exists t].
Qed.

Lemma starts_with_false (w s : list ascii) :
  Py.starts_with w s = false -> forall t, s <> w ++ t.
Proof.
  rewrite <- not_true_iff_false, starts_with_spec.
  intros Hno t Ht. apply Hno. by exists t.
Qed.

Lemma prefix_code_check (seqs : list (list ascii)) :
  forallb (fun w =>
             negb (Py.is_empty w)
             && forallb (fun w' => negb (Py.starts_with w w')
                                   || (length w' =? length w)%nat) seqs) seqs = true ->
  Py.prefix_code seqs.
Proof.
  rewrite forallb_forall. intros Hcheck. split.
  - apply Forall_forall. intros w Hw ->.
    by specialize (Hcheck [] (proj1 (list_elem_of_In _ _) Hw)).
  - intros w w' t Hw Hw' ->.
    specialize (Hcheck w (proj1 (list_elem_of_In _ _) Hw)).
    apply andb_true_iff in Hcheck as [_ Hcheck]. rewrite forallb_forall in Hcheck.
    specialize (Hcheck (w ++ t) (proj1 (list_elem_of_In _ _) Hw')).
    apply orb_true_iff in Hcheck as [Hno|Hlen].
    + apply negb_true_iff in Hno. by destruct (starts_with_false _ _ Hno t).
    + apply Nat.eqb_eq in Hlen. rewrite length_app in Hlen.
      destruct t; [done | simpl in Hlen; lia].
Qed.

Lemma whitespace_code : Py.prefix_code Py.whitespace.
Proof. apply prefix_code_check. vm_compute. reflexivity. Qed.

Lemma whitespace_rev_code : Py.prefix_code (map (@rev ascii) Py.whitespace).
Proof. apply prefix_code_check. vm_compute. reflexivity. Qed.

Lemma lstrip_seqs_spec (seqs : list (list ascii)) :
  Py.prefix_code seqs ->
  forall (fuel : nat) (s : list ascii),
    (length s <= fuel)%nat ->
    (exists ws,
       Forall (fun w => w ∈ seqs) ws
       /\ s = concat ws ++ Py.lstrip_seqs seqs fuel s)
    /\ forall w, w ∈ seqs -> Py.starts_with w (Py.lstrip_seqs seqs fuel s) = false.
Proof.
  intros [Hne _]. rewrite Forall_forall in Hne.
  induction fuel as [|fuel IH]; intros s Hlen.
  - destruct s; [|simpl in Hlen; lia]. simpl. split; [by exists []|].
    intros w Hw. specialize (Hne w Hw). by destruct w.
  - simpl. destruct (List.find _ seqs) as [w|] eqn:Hfind.
    + apply find_some in Hfind as [Hw [t ->]%starts_with_spec].
      apply list_elem_of_In in Hw. rewrite drop_app_length.
      destruct (IH t) as [(ws & Hws & Ht) Hno].
      { specialize (Hne w Hw). rewrite length_app in Hlen. destruct w; [done|].
        simpl in Hlen. lia. }
      split; [|done]. exists (w :: ws). split; [by constructor|].
      simpl. rewrite <- app_assoc. by f_equal.
    + split; [by exists []|]. intros w Hw.
      by apply (find_none _ _ Hfind), list_elem_of_In.
Qed.

Lemma lstrip_seqs_blank (seqs : list (list ascii)) :
  Py.prefix_code seqs ->
  forall (ws : list (list ascii)) (fuel : nat),
    Forall (fun w => w ∈ seqs) ws ->
    (length (concat ws) <= fuel)%nat ->
    Py.lstrip_seqs seqs fuel (concat ws) = [].
Proof.
  intros [Hne Hfree]. rewrite Forall_forall in Hne.
  induction ws as [|w ws IH]; intros fuel Hws Hlen.
  - destruct fuel as [|fuel]; [done|]. simpl.
    destruct (List.find _ seqs) as [w|] eqn:Hfind; [|done].
    apply find_some in Hfind as [Hw Hstart]. apply list_elem_of_In in Hw.
    specialize (Hne w Hw). by destruct w.
  - apply Forall_cons in Hws as [Hw Hws]. simpl in *.
    assert (Hw0 : w <> []) by by apply Hne.
    destruct fuel as [|fuel].
    { rewrite length_app in Hlen. destruct w; [done | simpl in Hlen; lia]. }
    simpl. destruct (List.find _ seqs) as [w'|] eqn:Hfind.
    + apply find_some in Hfind as [Hw' [t Ht]%starts_with_spec].
      apply list_elem_of_In in Hw'.
      assert (w' = w) as ->.
      { apply app_eq_inv in Ht as [(k & -> & _)|(k & -> & _)].
        - rewrite (Hfree w' (w' ++ k) k Hw' Hw eq_refl). by rewrite app_nil_r.
        - rewrite (Hfree w (w ++ k) k Hw Hw' eq_refl). by rewrite app_nil_r. }
      rewrite drop_app_length. apply IH; [done|].
      rewrite length_app in Hlen. destruct w; [done | simpl in Hlen; lia].
    + exfalso. pose proof (find_none _ _ Hfind w (proj1 (list_elem_of_In _ _) Hw)) as Hno.
      simpl in Hno. by apply (starts_with_false _ _ Hno (concat ws)).
Qed.

Lemma blank_app (s t : list ascii) : Py.blank s -> Py.blank t -> Py.blank (s ++ t).
Proof.
  intros (ws & Hws & ->) (ws' & Hws' & ->). exists (ws ++ ws').
  split; [by apply Forall_app | by rewrite concat_app].
Qed.

Lemma strip_spec (s : string) :
  (exists ws1 ws2,
     Py.blank ws1 /\ Py.blank ws2
     /\ list_ascii_of_string s = ws1 ++ list_ascii_of_string (Py.strip s) ++ ws2)
  /\ forall w t, w ∈ Py.whitespace ->
       list_ascii_of_string (Py.strip s) <> w ++ t
       /\ list_ascii_of_string (Py.strip s) <> t ++ w.
Proof.
  unfold Py.strip. rewrite list_ascii_of_string_of_list_ascii.
  set (l := list_ascii_of_string s).
  destruct (lstrip_seqs_spec _ whitespace_code (length l) l (le_n _))
    as [(ws1 & Hws1 & Hl) Hno1].
  fold (Py.lstrip_space l) in Hl, Hno1. set (l1 := Py.lstrip_space l) in *.
  destruct (lstrip_seqs_spec _ whitespace_rev_code (length l1) (rev l1))
    as [(ws2 & Hws2 & Hl1) Hno2]; [by rewrite length_rev|].
  assert (Hr : l1 = Py.rstrip_space l1 ++ concat (rev (map (@rev ascii) ws2))).
  { unfold Py.rstrip_space. rewrite <- (rev_involutive l1) at 1. rewrite Hl1 at 1.
    rewrite rev_app_distr. f_equal.
    clear. induction ws2 as [|w ws IH]; simpl; [done|].
    rewrite rev_app_distr, concat_app, IH. simpl. by rewrite app_nil_r. }
  assert (Hblank2 : Py.blank (concat (rev (map (@rev ascii) ws2)))).
  { eexists. split; [|done]. apply Forall_forall. intros w Hw.
    apply list_elem_of_In, in_rev, list_elem_of_In, list_elem_of_fmap in Hw
      as (w' & -> & Hw').
    rewrite Forall_forall in Hws2. apply Hws2, list_elem_of_fmap in Hw' as (w & -> & Hw).
    by rewrite rev_involutive. }
  split.
  - exists (concat ws1), (concat (rev (map (@rev ascii) ws2))).
    split; [by exists ws1|]. split; [done|]. by rewrite <- Hr.
  - intros w t Hw. split.
    + intros Heq. specialize (Hno1 w Hw).
      apply (starts_with_false _ _ Hno1 (t ++ concat (rev (map (@rev ascii) ws2)))).
      rewrite Hr, Heq. by rewrite <- app_assoc.
    + intros Heq.
      assert (Hw' : rev w ∈ map (@rev ascii) Py.whitespace)
        by (apply list_elem_of_fmap; by exists w).
      specialize (Hno2 (rev w) Hw').
      apply (starts_with_false _ _ Hno2 (rev t)). unfold Py.rstrip_space in Heq.
      apply (f_equal (@rev ascii)) in Heq.
      by rewrite rev_involutive, rev_app_distr in Heq.
Qed.

Lemma strip_empty_iff (s : string) :
  Py.strip s = EmptyString <-> Py.blank (list_ascii_of_string s).
Proof.
  split.
  - intros Hs. destruct (strip_spec s) as [(ws1 & ws2 & Hb1 & Hb2 & Heq) _].
    rewrite Heq, Hs. simpl. by apply blank_app.
  - intros (ws & Hws & Heq). unfold Py.strip, Py.lstrip_space. rewrite Heq.
    by rewrite (lstrip_seqs_blank _ whitespace_code ws _ Hws (le_n _)).
Qed.

(** X19: the examples are the records of the data set whose answer is not
    made of whitespace alone, each with the record's query as its question
    and the record's answer as its only answer.  On such an example
    [recall_score] never raises and is 0.0 or 1.0. *)
Theorem examples_have_one_answer (lower : string -> string) (ds : list Grpo.DatasetRow) :
  (forall ex,
     ex ∈ Grpo.make_examples ds
     <-> exists row,
           row ∈ ds
           /\ ex = {| Grpo.question := Grpo.ds_query row;
                      Grpo.answers := [Grpo.ds_answer row] |}
           /\ ~ Py.blank (list_ascii_of_string (Grpo.ds_answer row)))
  /\ forall ex docs,
       ex ∈ Grpo.make_examples ds ->
       Grpo.recall_score lower (Grpo.answers ex) docs = Ok 0%float
       \/ Grpo.recall_score lower (Grpo.answers ex) docs = Ok 1%float.
Proof.
  assert (Hkeep : forall row,
            negb (String.eqb (Py.strip (Grpo.ds_answer row)) EmptyString) = true
            <-> ~ Py.blank (list_ascii_of_string (Grpo.ds_answer row))).
  { intros row. rewrite negb_true_iff, <- strip_empty_iff. apply String.eqb_neq. }
  split.
  - intros ex. unfold Grpo.make_examples. rewrite list_elem_of_fmap. split.
    + intros (row & -> & Hrow). apply list_elem_of_In, filter_In in Hrow as [Hin Hstrip].
      exists row. split; [by apply list_elem_of_In|]. split; [done | by apply Hkeep].
    + intros (row & Hin & -> & Hnb). exists row. split; [done|].
      apply list_elem_of_In, filter_In. split; [by apply list_elem_of_In | by apply Hkeep].
  - intros ex docs (row & -> & _)%list_elem_of_fmap. cbn [Grpo.answers].
    rewrite recall_score_single. destruct (existsb _ _); [by right | by left].
Qed.

Lemma examples_have_one_answer_witness :
  Grpo.recall_score Grpo.ascii_lower ["attention"] ["Attention is all you need"] = Ok 0%float
  \/ Grpo.recall_score Grpo.ascii_lower ["attention"] ["Attention is all you need"]
     = Ok 1%float.
Proof.
  refine (proj2 (examples_have_one_answer Grpo.ascii_lower
           [ {| Grpo.ds_query := "q0"; Grpo.ds_answer := "  "; Grpo.ds_document := "d0" |};
             {| Grpo.ds_query := "q1"; Grpo.ds_answer := "attention";
                Grpo.ds_document := "d1" |} ])
           {| Grpo.question := "q1"; Grpo.answers := ["attention"] |}
           ["Attention is all you need"] _).
  vm_compute. apply list_elem_of_here.
Defined.

(** X20: the three sets are consecutive slices of the shuffled examples: put
    end to end they are its first 200 elements, so no position belongs to
    two sets; with fewer than 200 examples the later sets are shorter or
    empty, and nothing raises. *)
Theorem split_is_consecutive (shuffled : list Grpo.Example) :
  let trainset := fst (fst (Grpo.split_examples shuffled)) in
  let devset := snd (fst (Grpo.split_examples shuffled)) in
  let testset := snd (Grpo.split_examples shuffled) in
  trainset ++ devset ++ testset = take 200 shuffled
  /\ length trainset = Nat.min 100 (length shuffled)
  /\ length devset = Nat.min 50 (length shuffled - 100)
  /\ length testset = Nat.min 50 (length shuffled - 150).
Proof.
  cbv zeta. unfold Grpo.split_examples, Py.slice. cbn [fst snd].
  change (100 - 0)%nat with 100%nat. change (150 - 100)%nat with 50%nat.
  change (200 - 150)%nat with 50%nat. rewrite drop_0.
  split; [|by rewrite !length_take, !length_drop].
  rewrite app_assoc, (take_take_drop shuffled 100 50).
  change (100 + 50)%nat with 150%nat.
  by rewrite (take_take_drop shuffled 150 50).
Qed.

Lemma split_is_consecutive_small :
  Grpo.split_examples [ {| Grpo.question := "q"; Grpo.answers := ["a"] |} ]
  = ([ {| Grpo.question := "q"; Grpo.answers := ["a"] |} ], [], []).
Proof. reflexivity. Qed.

(** ** The evaluation data of the hybrid-vs-vector notebook *)

Lemma recall_singleton (retrieved : list string) (id : string) :
  Hybrid.recall retrieved [id] =
  Ok (if Py.contains id retrieved then 1%float else 0%float).
Proof.
  unfold Hybrid.recall.
  destruct (Py.contains id retrieved) eqn:Hc.
  - apply contains_spec in Hc.
    replace ((list_to_set retrieved : gset string) ∩ list_to_set [id])
      with ({[id]} : gset string) by set_solver.
    by rewrite size_singleton.
  - apply contains_false in Hc.
    replace ((list_to_set retrieved : gset string) ∩ list_to_set [id])
      with (∅ : gset string) by set_solver.
    by rewrite size_empty.
Qed.

Lemma group_records_from_elem {E : Type} (tbl : Hybrid.Table E)
    (expected_ids : list (list string)) (embeddings : list E) (k : Z) (method : string)
    (queries : list string) :
  forall (idx : nat) (rs : list Hybrid.MetricRecord) (r : Hybrid.MetricRecord),
    Hybrid.group_records_from tbl expected_ids embeddings k method idx queries = Ok rs ->
    r ∈ rs ->
    exists i query,
      queries !! i = Some query
      /\ Hybrid.cell_record tbl expected_ids embeddings k method (idx + i) query = Ok r.
Proof.
  induction queries as [|query rest IH]; intros idx rs r Hrs Hr; simpl in Hrs.
  - injection Hrs as <-. by apply elem_of_nil in Hr.
  - apply bind_inv in Hrs as (r0 & Hr0 & Hrs).
    apply bind_inv in Hrs as (rs' & Hrest & Hrs).
    injection Hrs as <-. apply elem_of_cons in Hr as [->|Hr].
    + exists 0%nat, query. split; [done|]. by rewrite Nat.add_0_r.
    + destruct (IH (S idx) rs' r Hrest Hr) as (i & q & Hq & Hcell).
      exists (S i), q. split; [done|].
      by replace (idx + S i)%nat with (S idx + i)%nat by lia.
Qed.

Lemma cell_record_singleton {E : Type} (tbl : Hybrid.Table E)
    (items : list Hybrid.SyntheticQuery) (embeddings : list E) (k : Z) (method : string)
    (idx : nat) (query : string) (r : Hybrid.MetricRecord) :
  Hybrid.cell_record tbl (Hybrid.prepare_expected_ids items) embeddings k method idx query
  = Ok r ->
  Hybrid.rec_recall r = 0%float \/ Hybrid.rec_recall r = 1%float.
Proof.
  unfold Hybrid.cell_record, Hybrid.prepare_expected_ids.
  intros (eid & Heid & H)%bind_inv.
  apply index_inv in Heid. rewrite list_lookup_fmap in Heid.
  destruct (items !! idx) as [item|]; [|done]. injection Heid as <-.
  apply bind_inv in H as (emb & _ & H). unfold Hybrid.score in H.
  apply bind_inv in H as (retrieved & _ & H).
  rewrite recall_singleton in H. simpl in H.
  apply bind_inv in H as (retrieved' & _ & H).
  apply bind_inv in H as (m & _ & H). injection H as <-. simpl.
  destruct (Py.contains _ _); [by right | by left].
Qed.

(** X21: the notebook builds every expected list as the singleton of the
    item's id, so the unguarded division of [recall] is never by zero there:
    [evaluate_search] on the prepared data returns as soon as every query
    has an embedding and the three searches return, and every recall it
    records is 0.0 (id not retrieved) or 1.0 (id retrieved). *)
Theorem prepared_data_never_divides_by_zero {E : Type} (tbl : Hybrid.Table E)
    (items : list Hybrid.SyntheticQuery) (embeddings : list E) (k : Z) :
  (forall retrieved id,
     Hybrid.recall retrieved [id] = Ok (if Py.contains id retrieved then 1%float else 0%float))
  /\ ((forall idx item, items !! idx = Some item ->
         exists emb,
           embeddings !! idx = Some emb
           /\ is_ok (Hybrid.search_semantic tbl (Hybrid.sq_query item) emb k) = true
           /\ is_ok (Hybrid.search_lexical tbl (Hybrid.sq_query item) k) = true
           /\ is_ok (Hybrid.search_hybrid tbl (Hybrid.sq_query item) emb k) = true) ->
      is_ok (Hybrid.evaluate_search tbl (Hybrid.prepare_queries items)
               (Hybrid.prepare_expected_ids items) embeddings k) = true)
  /\ forall metrics,
       Hybrid.evaluate_search tbl (Hybrid.prepare_queries items)
         (Hybrid.prepare_expected_ids items) embeddings k = Ok metrics ->
       forall r,
         r ∈ Hybrid.semantic metrics ++ Hybrid.lexical metrics ++ Hybrid.hybrid metrics ->
         Hybrid.rec_recall r = 0%float \/ Hybrid.rec_recall r = 1%float.
Proof.
  split; [apply recall_singleton|]. split.
  - intros Hcalls. apply is_ok_true, evaluate_search_returns.
    intros idx query Hq. unfold Hybrid.prepare_queries in Hq.
    rewrite list_lookup_fmap in Hq.
    destruct (items !! idx) as [item|] eqn:Hitem; [|done]. injection Hq as <-.
    destruct (Hcalls idx item Hitem) as (emb & Hemb & Hs & Hl & Hh).
    exists [Hybrid.sq_id item], emb. unfold Hybrid.prepare_expected_ids.
    rewrite list_lookup_fmap, Hitem. done.
  - intros metrics [_ Hrecs]%evaluate_search_inv r Hr.
    assert (Hgroup : forall method, r ∈ Hybrid.records_of metrics method ->
              Hybrid.rec_recall r = 0%float \/ Hybrid.rec_recall r = 1%float).
    { intros method Hin.
      destruct (group_records_from_elem tbl _ embeddings k method _ 0%nat _ r
                  (Hrecs method) Hin) as (i & query & _ & Hcell).
      by apply cell_record_singleton in Hcell. }
    apply elem_of_app in Hr as [Hr|Hr]; [by apply (Hgroup "semantic")|].
    apply elem_of_app in Hr as [Hr|Hr];
      [by apply (Hgroup "lexical") | by apply (Hgroup "hybrid")].
Qed.

Lemma prepared_data_never_divides_by_zero_witness :
  is_ok (Hybrid.evaluate_search Hybrid.steady_table
           (Hybrid.prepare_queries [ {| Hybrid.sq_query := "red dress"; Hybrid.sq_id := "2" |} ])
           (Hybrid.prepare_expected_ids
              [ {| Hybrid.sq_query := "red dress"; Hybrid.sq_id := "2" |} ])
           [()] 5) = true.
Proof.
  apply (proj1 (proj2 (prepared_data_never_divides_by_zero Hybrid.steady_table
                         [ {| Hybrid.sq_query := "red dress"; Hybrid.sq_id := "2" |} ]
                         [()] 5))).
  intros [|idx] item Hitem; [|done]. by exists ().
Defined.

(** ** The BM25 search wrapper *)

Lemma dict_set_keys (run : list (string * float)) (key : string) (value : float) :
  map fst (Grpo.dict_set run key value) =
  if Py.contains key (map fst run) then map fst run else map fst run ++ [key].
Proof.
  unfold Grpo.dict_set, Py.contains.
  assert (Hex : existsb (fun kv => String.eqb (fst kv) key) run
                = existsb (String.eqb key) (map fst run)).
  { induction run as [|kv run IH]; simpl; [done|].
    by rewrite IH, (String.eqb_sym (fst kv) key). }
  rewrite Hex. destruct (existsb _ (map fst run)).
  - clear. induction run as [|kv run IH]; simpl; [done|]. rewrite IH. f_equal.
    destruct (String.eqb (fst kv) key) eqn:Heq; [|done].
    apply String.eqb_eq in Heq. by rewrite Heq.
  - by rewrite map_app.
Qed.

Lemma dict_set_nodup (run : list (string * float)) (key : string) (value : float) :
  NoDup (map fst run) -> NoDup (map fst (Grpo.dict_set run key value)).
Proof.
  intros Hnd. rewrite dict_set_keys.
  destruct (Py.contains key (map fst run)) eqn:Hc; [done|].
  apply contains_false in Hc. apply NoDup_app. split; [done|]. split.
  - intros x Hx ->%list_elem_of_singleton. done.
  - apply NoDup_singleton.
Qed.

Lemma build_run_spec (corpus : list string) (pairs : list (nat * float)) :
  forall (run run' : list (string * float)),
    Grpo.build_run corpus pairs run = Ok run' ->
    (NoDup (map fst run) -> NoDup (map fst run'))
    /\ (forall d, d ∈ map fst run' <->
          d ∈ map fst run \/ exists doc score, (doc, score) ∈ pairs /\ corpus !! doc = Some d)
    /\ (NoDup (map fst run) ->
        (forall docs, mapM (Hybrid.index corpus) (map fst pairs) = Ok docs ->
           NoDup docs -> (forall d, d ∈ docs -> d ∉ map fst run) ->
           map fst run' = map fst run ++ docs)).
Proof.
  induction pairs as [|[doc score] pairs IH]; intros run run' Hrun; simpl in Hrun.
  - injection Hrun as <-. split; [done|]. split.
    + intros d. split; [by left|]. intros [?|(? & ? & ?%elem_of_nil & _)]; done.
    + intros _ docs [= <-] _ _. by rewrite app_nil_r.
  - apply bind_inv in Hrun as (key & Hkey & Hrun). apply index_inv in Hkey.
    destruct (IH _ _ Hrun) as (Hnd & Hmem & Hord). split; [|split].
    + intros Hn. by apply Hnd, dict_set_nodup.
    + intros d. rewrite Hmem, dict_set_keys. split.
      * intros [Hd|(doc' & score' & Hin & Hdoc)].
        -- destruct (Py.contains key (map fst run)); [by left|].
           apply elem_of_app in Hd as [Hd | ->%list_elem_of_singleton]; [by left|].
           right. exists doc, score. split; [by left | done].
        -- right. exists doc', score'. split; [by right | done].
      * intros [Hd|(doc' & score' & [[= -> ->]|Hin]%elem_of_cons & Hdoc)].
        -- left. destruct (Py.contains key (map fst run)); [done|].
           apply elem_of_app. by left.
        -- left. rewrite Hkey in Hdoc. injection Hdoc as <-.
           destruct (Py.contains key (map fst run)) eqn:Hc;
             [by apply contains_spec | apply elem_of_app; right; by left].
        -- right. by exists doc', score'.
    + intros Hn docs Hdocs Hnd' Hfresh. simpl in Hdocs.
      apply bind_inv in Hdocs as (d0 & Hd0 & Hdocs). apply index_inv in Hd0.
      rewrite Hkey in Hd0. injection Hd0 as <-.
      apply bind_inv in Hdocs as (docs' & Hdocs' & Hdocs). injection Hdocs as <-.
      apply NoDup_cons in Hnd' as [Hk Hnd'].
      assert (Hc : Py.contains key (map fst run) = false).
      { apply contains_false, Hfresh. by left. }
      rewrite (Hord (dict_set_nodup _ _ _ Hn) docs' Hdocs' Hnd').
      * rewrite dict_set_keys, Hc. by rewrite <- app_assoc.
      * intros d Hd. rewrite dict_set_keys, Hc. intros [Hin | ->%list_elem_of_singleton]%elem_of_app.
        -- apply (Hfresh d); [by right | done].
        -- done.
Qed.

(** X22: [search] never returns the same document twice: the documents come
    out as the keys of a dict.  Each one is the corpus entry of a retrieved
    index; and when the retrieved indices point to pairwise different
    documents the result is these documents in rank order. *)
Theorem search_returns_distinct_documents (corpus : list string)
    (retrieve : string -> Z -> result (list nat * list float))
    (query : string) (k : Z) (results : list nat) (scores : list float)
    (docs : list string) :
  retrieve query k = Ok (results, scores) ->
  Grpo.search corpus retrieve query k = Ok docs ->
  NoDup docs
  /\ (forall d, d ∈ docs <->
        exists doc score, (doc, score) ∈ zip results scores /\ corpus !! doc = Some d)
  /\ (forall ranked,
        mapM (Hybrid.index corpus) (map fst (zip results scores)) = Ok ranked ->
        NoDup ranked -> docs = ranked).
Proof.
  intros Hret. unfold Grpo.search. rewrite Hret. simpl.
  intros (run & Hrun & [= <-])%bind_inv.
  destruct (build_run_spec corpus _ _ _ Hrun) as (Hnd & Hmem & Hord).
  split; [apply Hnd; constructor|]. split.
  - intros d. rewrite Hmem. split; [|by right].
    intros [?%elem_of_nil|?]; done.
  - intros ranked Hranked Hnd'. apply (Hord ltac:(constructor) ranked Hranked Hnd').
    intros d _ ?%elem_of_nil. done.
Qed.

Lemma search_returns_distinct_documents_witness :
  NoDup ["gpt-2 paper"; "gpt-3 paper"].
Proof.
  apply (search_returns_distinct_documents
           ["gpt-1 paper"; "gpt-2 paper"; "gpt-3 paper"]
           (fun _ _ => Ok ([1; 2; 1]%nat, [3; 2; 1]%float))
           "scaling" 3 [1; 2; 1]%nat [3; 2; 1]%float
           ["gpt-2 paper"; "gpt-3 paper"]); reflexivity.
Defined.

(** ** The synthetic queries of the hybrid-vs-vector notebook *)

Lemma lstrip_spec (p : ascii -> bool) (s : string) :
  (exists pre,
     list_ascii_of_string s = pre ++ list_ascii_of_string (Py.lstrip p s)
     /\ Forall (fun c => p c = true) pre)
  /\ forall c l, list_ascii_of_string (Py.lstrip p s) = c :: l -> p c = false.
Proof.
  induction s as [|a rest [(pre & Hpre & Hall) Hhead]]; simpl.
  - split; [by exists [] | done].
  - destruct (p a) eqn:Hp.
    + split; [|done]. exists (a :: pre). split; [by rewrite Hpre | by constructor].
    + split; [by exists []|]. simpl. by intros c l [= <- _].
Qed.

Lemma rstrip_spec (p : ascii -> bool) (s : string) :
  (exists post,
     list_ascii_of_string s = list_ascii_of_string (Py.rstrip p s) ++ post
     /\ Forall (fun c => p c = true) post)
  /\ (forall l c, list_ascii_of_string (Py.rstrip p s) = l ++ [c] -> p c = false)
  /\ (forall c l, list_ascii_of_string (Py.rstrip p s) = c :: l ->
        exists l', list_ascii_of_string s = c :: l').
Proof.
  induction s as [|a rest [(post & Hpost & Hall) [Hlast Hhead]]]; simpl.
  - split; [by exists []|]. split; [by intros [|] | done].
  - destruct (String.eqb (Py.rstrip p rest) EmptyString) eqn:He; simpl.
    + apply String.eqb_eq in He. rewrite He in *. simpl in *.
      destruct (p a) eqn:Hp; simpl.
      * split; [exists (a :: post); split; [by rewrite Hpost | by constructor]|].
        split; [by intros [|] | done].
      * split; [by exists post; rewrite Hpost|]. split.
        -- intros [|b [|]] c; simpl; [by intros [= <-] | done | done].
        -- intros c l [= <- _]. by eexists.
    + split; [by exists post; rewrite Hpost|]. split.
      * intros [|b l] c; simpl.
        -- intros [= _ Hnil]. apply String.eqb_neq in He.
           destruct (Py.rstrip p rest); [done | discriminate].
        -- intros [= _ Hl]. by apply (Hlast l).
      * intros c l [= <- _]. by eexists.
Qed.

Lemma strip_chars_spec (p : ascii -> bool) (s : string) :
  (exists pre post,
     list_ascii_of_string s = pre ++ list_ascii_of_string (Py.strip_chars p s) ++ post
     /\ Forall (fun c => p c = true) pre /\ Forall (fun c => p c = true) post)
  /\ (forall c l, list_ascii_of_string (Py.strip_chars p s) = c :: l -> p c = false)
  /\ (forall l c, list_ascii_of_string (Py.strip_chars p s) = l ++ [c] -> p c = false).
Proof.
  unfold Py.strip_chars.
  destruct (lstrip_spec p s) as [(pre & Hpre & Hall) Hhead].
  destruct (rstrip_spec p (Py.lstrip p s)) as [(post & Hpost & Hall') [Hlast Hkeep]].
  split; [|split; [|done]].
  - exists pre, post. by rewrite Hpre, Hpost.
  - intros c l Hc. destruct (Hkeep c l Hc) as [l' Hl']. by apply (Hhead c l').
Qed.

(** X23: the query kept from the model's answer is the answer stripped
    twice.  [strip()] removes whitespace characters, and nothing else, from
    the two ends, and leaves a text that neither starts nor ends with a
    whitespace character; the second [strip], whose argument is the double
    quote, then removes double quotes, and nothing else, from the two ends
    of that text, and leaves a query that
    neither starts nor ends with a double quote.  Whitespace that stood
    inside the quotes, and quotes or whitespace further inside, are
    kept. *)
Theorem generated_query_is_unquoted (content : string) :
  let stripped := Py.strip content in
  let query := Py.strip_chars Hybrid.is_quote stripped in
  (exists ws1 ws2,
     Py.blank ws1 /\ Py.blank ws2
     /\ list_ascii_of_string content = ws1 ++ list_ascii_of_string stripped ++ ws2)
  /\ (forall w t, w ∈ Py.whitespace ->
        list_ascii_of_string stripped <> w ++ t
        /\ list_ascii_of_string stripped <> t ++ w)
  /\ (exists q1 q2,
        list_ascii_of_string stripped = q1 ++ list_ascii_of_string query ++ q2
        /\ Forall (fun c => Hybrid.is_quote c = true) q1
        /\ Forall (fun c => Hybrid.is_quote c = true) q2)
  /\ (forall c l, list_ascii_of_string query = c :: l -> Hybrid.is_quote c = false)
  /\ (forall l c, list_ascii_of_string query = l ++ [c] -> Hybrid.is_quote c = false).
Proof.
  cbv zeta. destruct (strip_spec content) as [Hparts Hends].
  destruct (strip_chars_spec Hybrid.is_quote (Py.strip content)) as [Hquotes Hquery].
  done.
Qed.

(** X24: [generate_synthetic_query] returns the item with one more entry:
    every entry of the item is in the result unchanged, the only other key
    is [query], and the generated query is stored there unless the item
    has a [query] of its own, which then wins. *)
Theorem synthetic_query_keeps_item {Value : Type} (str : string -> Value)
    (complete : list Value -> result string)
    (item data : gmap string Value) :
  Hybrid.generate_synthetic_query Value str complete item = Ok data ->
  (forall key v, item !! key = Some v -> data !! key = Some v)
  /\ (forall key, key <> "query" -> data !! key = item !! key)
  /\ (item !! "query" = None ->
      exists fields content,
        complete fields = Ok content
        /\ data !! "query"
           = Some (str (Py.strip_chars Hybrid.is_quote (Py.strip content)))).
Proof.
  unfold Hybrid.generate_synthetic_query.
  intros (fields & _ & (content & Hcontent & [= <-])%bind_inv)%bind_inv.
  split; [|split].
  - intros key v Hv. by apply lookup_union_Some_l.
  - intros key Hkey. rewrite lookup_union_l; [done|]. by apply lookup_singleton_ne.
  - intros Hq. exists fields, content. split; [done|].
    rewrite lookup_union_r; [|done]. apply lookup_singleton_eq.
Qed.

Lemma synthetic_query_keeps_item_witness :
  (Hybrid.sample_item ∪ {["query" := "sleeveless lace top "]} : gmap string string)
    !! "title" = Some "Lace Detail Sleeveless Top".
Proof.
  apply (proj1 (synthetic_query_keeps_item (fun s => s)
                  (fun _ => Ok Hybrid.sample_answer) Hybrid.sample_item
                  (Hybrid.sample_item ∪ {["query" := "sleeveless lace top "]})
                  eq_refl)).
  reflexivity.
Defined.

(** X25: the prompt reads nine fields of the item before the model is
    called: an item that lacks one of them makes
    [generate_synthetic_query] raise [KeyError], whatever the model would
    answer. *)
Theorem synthetic_query_needs_prompt_fields {Value : Type} (str : string -> Value)
    (complete : list Value -> result string)
    (item : gmap string Value) (key : string) :
  key ∈ Hybrid.prompt_fields ->
  item !! key = None ->
  Hybrid.generate_synthetic_query Value str complete item = Raise KeyError.
Proof.
  intros Hkey Hnone. unfold Hybrid.generate_synthetic_query.
  assert (Hraise : forall keys, key ∈ keys ->
            mapM (Hybrid.getfield Value item) keys = Raise KeyError).
  { induction keys as [|k keys IH]; [by intros ?%elem_of_nil|].
    intros Hin. simpl.
    destruct (Hybrid.getfield Value item k) as [v|e] eqn:Hk; simpl.
    - apply elem_of_cons in Hin as [->|Hin]; [|by rewrite IH].
      unfold Hybrid.getfield in Hk. by rewrite Hnone in Hk.
    - unfold Hybrid.getfield in Hk. destruct (item !! k); [done|]. by injection Hk as <-. }
  by rewrite (Hraise _ Hkey).
Qed.

Lemma synthetic_query_needs_prompt_fields_witness :
  Hybrid.generate_synthetic_query string (fun s => s) (fun _ => Ok Hybrid.sample_answer)
    (delete "price" Hybrid.sample_item) = Raise KeyError.
Proof.
  apply (synthetic_query_needs_prompt_fields (fun s => s)
           (fun _ => Ok Hybrid.sample_answer) (delete "price" Hybrid.sample_item) "price").
  - unfold Hybrid.prompt_fields. do 5 apply list_elem_of_further. apply list_elem_of_here.
  - apply lookup_delete_eq.
Defined.
